(** * git-repos.py: repository statistics and the Projects table

    A shallow embedding of [git-repos.py] and the properties of its
    notebook byte counter, language statistics, status classification,
    markdown table and README splice.

    Conventions.
    - Python [int] is [Z].
    - Python [str] used as an identifier, a dictionary key or a line of
      the README is a [string]; notebook source text, whose encoded
      length the code measures, is a list of Unicode code points
      ([text]).
    - A [dict] whose iteration order the code relies on is an
      association list in insertion order; [collections.Counter] is a
      [gmap string Z] read with default 0.
    - A call that may raise returns [option]; [None] stands for the
      exception, which nothing in the script catches.
    - The worklist loop of [count_jupyter_bytes] decreases the number of
      tree nodes still to visit and is defined by well-founded
      recursion; the two [while] loops of [main] have no such measure
      and take a bound on their iterations, [None] meaning that the
      bound was reached. *)

From stdpp Require Import gmap strings list fin_maps sorting.
From Equations Require Import Equations.
From Stdlib Require Import ZArith Ascii.

Local Open Scope Z_scope.

(** ** Python built-ins used by the script *)

Definition nl : string := String "010"%char EmptyString.

(** [s.startswith(p)] *)
Definition startswith (s p : string) : bool := String.prefix p s.

(** [s.endswith(p)] *)
Definition endswith (s p : string) : bool :=
  let n := String.length s in
  let k := String.length p in
  (k <=? n)%nat && String.eqb (String.substring (n - k) k s) p.

(** Notebook text: the code points of a Python [str]. *)
Definition text := list N.

Definition text_of_ascii (s : string) : text :=
  N_of_ascii <$> String.list_ascii_of_string s.

(** Number of bytes [c] takes in UTF-8; a lone surrogate cannot be
    encoded ([UnicodeEncodeError]). *)
Definition utf8_char_len (c : N) : option Z :=
  if (c <? 0x80)%N then Some 1
  else if (c <? 0x800)%N then Some 2
  else if (0xD800 <=? c)%N && (c <=? 0xDFFF)%N then None
  else if (c <? 0x10000)%N then Some 3
  else Some 4.

(** [len(line.encode('utf-8'))] *)
Fixpoint utf8_len (line : text) : option Z :=
  match line with
  | [] => Some 0
  | c :: rest =>
      k ← utf8_char_len c;
      n ← utf8_len rest;
      Some (k + n)
  end.

(** ** Repository contents as the GitHub API lists them *)

(** One cell of a parsed notebook: [cell['cell_type']] and
    [cell['source']].  When [source] is a single string in the file,
    iterating over it yields its one-character strings. *)
Record Cell := mkCell {
  cell_type : string;
  source : list text
}.

(** A [ContentFile].  [cf_notebook] is
    [json.loads(base64.b64decode(content).decode('utf-8').strip("'"))['cells']],
    [None] when decoding, parsing or a field lookup raises.
    [cf_listing] is what [gh_repo.get_contents(file_content.path)]
    returns for this entry. *)
#[warnings="-register-all"]
Inductive ContentFile := mkContentFile {
  cf_type : string;
  cf_name : string;
  cf_notebook : option (list Cell);
  cf_listing : list ContentFile
}.

Fixpoint cf_size (e : ContentFile) : nat :=
  match e with
  | mkContentFile _ _ _ l =>
      S ((fix go (l : list ContentFile) : nat :=
            match l with
            | [] => O
            | x :: q => (cf_size x + go q)%nat
            end) l)
  end.

Definition worklist_size (l : list ContentFile) : nat :=
  foldr (λ e n, (cf_size e + n)%nat) O l.

Lemma cf_size_eq e : cf_size e = S (worklist_size (cf_listing e)).
Proof.
  destruct e as [t n c l]; simpl. f_equal.
Qed.

Lemma worklist_size_app l1 l2 :
  worklist_size (l1 ++ l2) = (worklist_size l1 + worklist_size l2)%nat.
Proof. induction l1 as [|x q IH]; simpl; [done|]. rewrite IH. lia. Qed.

(** ** count_jupyter_bytes *)

(** The two inner [for] loops over the lines of one cell and over the
    cells of one notebook. *)
Fixpoint count_lines (lines : list text) (bytes_count : Z) : option Z :=
  match lines with
  | [] => Some bytes_count
  | line :: rest =>
      n ← utf8_len line;
      count_lines rest (bytes_count + n)
  end.

Fixpoint count_cells (cells : list Cell) (bytes_count : Z) : option Z :=
  match cells with
  | [] => Some bytes_count
  | cell :: rest =>
      if String.eqb (cell_type cell) "code"
      then b ← count_lines (source cell) bytes_count; count_cells rest b
      else count_cells rest bytes_count
  end.

(** The body of the [while] loop for the popped entry, apart from the
    worklist: the new [bytes_count]. *)
Definition visit (file_content : ContentFile) (bytes_count : Z) : option Z :=
  if String.eqb (cf_type file_content) "dir" then Some bytes_count
  else if endswith (cf_name file_content) ".ipynb" then
    cells ← cf_notebook file_content;
    count_cells cells bytes_count
  else Some bytes_count.

(** What [contents.extend(...)] appends for the popped entry. *)
Definition expand (file_content : ContentFile) : list ContentFile :=
  if String.eqb (cf_type file_content) "dir" then cf_listing file_content
  else [].

Lemma expand_decreases f q :
  (worklist_size (q ++ expand f) < worklist_size (f :: q))%nat.
Proof.
  unfold expand. rewrite worklist_size_app. simpl.
  rewrite (cf_size_eq f). destruct (String.eqb _ _); simpl; lia.
Qed.

(** [while len(contents) > 1: ...]; the result is the state at loop
    exit, [(bytes_count, contents)]. *)
Equations? count_loop (contents : list ContentFile) (bytes_count : Z)
  : option (Z * list ContentFile) by wf (worklist_size contents) lt :=
  count_loop [] bytes_count := Some (bytes_count, []);
  count_loop [e] bytes_count := Some (bytes_count, [e]);
  count_loop (file_content :: e :: rest) bytes_count :=
    match visit file_content bytes_count with
    | None => None
    | Some b => count_loop ((e :: rest) ++ expand file_content) b
    end.
Proof. apply (expand_decreases file_content (e :: rest)). Qed.

Definition count_jupyter_bytes (root : list ContentFile) : option Z :=
  fst <$> count_loop root 0.

(** ** datetime *)

(** A naive [datetime.datetime]. *)
Record datetime := mkDatetime {
  year : Z; month : Z; day : Z;
  hour : Z; minute : Z; second : Z; microsecond : Z
}.

Definition is_leap (y : Z) : bool :=
  (y mod 4 =? 0) && (negb (y mod 100 =? 0) || (y mod 400 =? 0)).

Definition days_before_year (y : Z) : Z :=
  let y' := y - 1 in y' * 365 + y' / 4 - y' / 100 + y' / 400.

Definition DAYS_BEFORE_MONTH : list Z :=
  [-1; 0; 31; 59; 90; 120; 151; 181; 212; 243; 273; 304; 334].

Definition days_before_month (y m : Z) : Z :=
  nth (Z.to_nat m) DAYS_BEFORE_MONTH 0
  + (if (2 <? m) && is_leap y then 1 else 0).

(** [d.toordinal()] *)
Definition toordinal (d : datetime) : Z :=
  days_before_year (year d) + days_before_month (year d) (month d) + day d.

(** A [timedelta] is held as its total number of microseconds; the
    normalised (days, seconds, microseconds) triples of Python compare
    as these totals do. *)
Definition timedelta := Z.

Definition timedelta_days (days : Z) : timedelta := days * 86400 * 1000000.

Definition seconds_of_day (d : datetime) : Z :=
  second d + minute d * 60 + hour d * 3600.

(** [a - b] on two naive datetimes *)
Definition datetime_sub (a b : datetime) : timedelta :=
  (toordinal a - toordinal b) * 86400 * 1000000
  + (seconds_of_day a - seconds_of_day b) * 1000000
  + (microsecond a - microsecond b).

Definition digit (d : Z) : string :=
  String (ascii_of_nat (48 + Z.to_nat d)) EmptyString.

Definition two_digits (n : Z) : string := digit (n / 10) +:+ digit (n mod 10).

Definition four_digits (n : Z) : string :=
  two_digits (n / 100) +:+ two_digits (n mod 100).

(** [d.strftime("%Y-%m-%d")], for the four-digit years of GitHub
    timestamps. *)
Definition strftime_Ymd (d : datetime) : string :=
  four_digits (year d) +:+ "-" +:+ two_digits (month d) +:+ "-"
  +:+ two_digits (day d).

(** ** Objects of the GitHub client *)

(** [NamedUser]; [==] compares login and id. *)
Record NamedUser := mkNamedUser {
  login : string;
  user_id : Z;
  user_html_url : string
}.

Definition NamedUser_eqb (a b : NamedUser) : bool :=
  String.eqb (login a) (login b) && (user_id a =? user_id b).

(** A dictionary in insertion order. *)
Definition dict (V : Type) := list (string * V).

Definition keys {V} (d : dict V) : list string := fst <$> d.

(** [d[k]]; [None] is [KeyError]. *)
Fixpoint dict_get {V} (d : dict V) (k : string) : option V :=
  match d with
  | [] => None
  | (k', v) :: q => if String.eqb k' k then Some v else dict_get q k
  end.

(** [Repository] as the script reads it. *)
Record Repository := mkRepository {
  repo_owner : NamedUser;
  repo_name : string;
  repo_html_url : string;
  repo_description : option string;
  repo_private : bool;
  repo_archived : bool;
  repo_updated_at : datetime;
  get_languages : dict Z;
  get_contributors : list NamedUser;
  get_contents : list ContentFile
}.

Record GistObject := mkGistObject {
  gist_owner : NamedUser;
  gist_description : option string;
  gist_html_url : string;
  gist_public : bool;
  gist_updated_at : datetime
}.

(** The [Github] handle: the authenticated user, the repositories
    and the gists [get_user()] reaches. *)
Record Github := mkGithub {
  get_user : NamedUser;
  get_repos : list Repository;
  get_gists : list GistObject
}.

(** [str(x)] inside an f-string for a value that may be [None]. *)
Definition fmt_opt (o : option string) : string :=
  match o with Some s => s | None => "None" end.

(** [sep.join(l)] *)
Fixpoint join (sep : string) (l : list string) : string :=
  match l with
  | [] => ""
  | [x] => x
  | x :: q => x +:+ sep +:+ join sep q
  end.

(** ** Repo and Gist *)

Definition status_options : list string := ["Current"; "Stale"; "Archive"].

Definition six_months : timedelta := timedelta_days 182.

Record Repo := mkRepo {
  owner : string;
  name : string;
  description : option string;
  languages : string;
  status : string;
  last_modified : string
}.

(** The [if]/[elif]/[else] of [Repo.__init__]. *)
Definition Repo_status (repo : Repository) (now : datetime) : string :=
  if repo_archived repo then "Archive"
  else if six_months <? datetime_sub now (repo_updated_at repo) then "Stale"
  else "Current".

(** [x in l] on strings *)
Definition str_in (x : string) (l : list string) : bool :=
  existsb (String.eqb x) l.

(** [Repo.__init__]; [now] is the reading of [datetime.datetime.now()].
    [None] is a failed [assert]. *)
Definition Repo_init (repo : Repository) (now : datetime) : option Repo :=
  let owner := "[" +:+ login (repo_owner repo) +:+ "]("
               +:+ user_html_url (repo_owner repo) +:+ ")" in
  let name := "[" +:+ repo_name repo +:+ "](" +:+ repo_html_url repo +:+ ")" in
  let description := repo_description repo in
  let languages := join ", " (keys (get_languages repo)) in
  let status := Repo_status repo now in
  if str_in status status_options then
    Some (mkRepo owner name description languages status
            (strftime_Ymd (repo_updated_at repo)))
  else None.

Definition Repo_markdown (r : Repo) : string :=
  "| " +:+ name r +:+ " | " +:+ fmt_opt (description r) +:+ " | "
  +:+ owner r +:+ " | " +:+ languages r +:+ " |" +:+ nl.

Record Gist := mkGist {
  g_owner : string;
  g_description : string;
  g_last_modified : string
}.

Definition Gist_init (gist : GistObject) : Gist :=
  mkGist
    ("[" +:+ login (gist_owner gist) +:+ "]("
     +:+ user_html_url (gist_owner gist) +:+ ")")
    ("[" +:+ fmt_opt (gist_description gist) +:+ "](" +:+ gist_html_url gist
     +:+ ")")
    (strftime_Ymd (gist_updated_at gist)).

Definition Gist_markdown (g : Gist) : string :=
  "| " +:+ g_description g +:+ " |" +:+ nl.

(** ** LangStat *)

Record LangStat := mkLangStat {
  ls_description : string;
  count_type : string;
  filename : string;
  counter : gmap string Z
}.

Definition LangStat_init (description count_type name : string) : LangStat :=
  mkLangStat description count_type
    ("figures/language_" +:+ name +:+ ".svg") ∅.

(** [counter[key]] of a [Counter]: 0 for a missing key. *)
Definition count (c : gmap string Z) (key : string) : Z :=
  default 0 (c !! key).

(** [LangStat.add]: [self.counter[key] += value] *)
Definition add (s : LangStat) (key : string) (value : Z) : LangStat :=
  mkLangStat (ls_description s) (count_type s) (filename s)
    (<[key := count (counter s) key + value]> (counter s)).

(** [LangStat.update]: [Counter.update] on an iterable adds one per
    element. *)
Definition update (s : LangStat) (iterable : list string) : LangStat :=
  foldl (λ s key, add s key 1) s iterable.

(** ** Repos *)

(** [max(iterable, key=keyf)]: the running maximum is replaced only
    by an item whose key is strictly greater.  [None] is the
    [ValueError] of an empty iterable or a [KeyError] of [keyf]. *)
Fixpoint max_loop (keyf : string → option Z) (l : list string)
    (maxitem : string) (maxval : Z) : option string :=
  match l with
  | [] => Some maxitem
  | item :: q =>
      val ← keyf item;
      if maxval <? val then max_loop keyf q item val
      else max_loop keyf q maxitem maxval
  end.

Definition py_max (keyf : string → option Z) (l : list string)
  : option string :=
  match l with
  | [] => None
  | item :: q => val ← keyf item; max_loop keyf q item val
  end.

(** [l.sort(reverse=True, key=keyf)]: descending and stable. *)
Fixpoint insert_desc {A} (keyf : A → string) (x : A) (l : list A) : list A :=
  match l with
  | [] => [x]
  | y :: q =>
      if String.ltb (keyf x) (keyf y) then y :: insert_desc keyf x q
      else x :: y :: q
  end.

Definition sort_desc {A} (keyf : A → string) (l : list A) : list A :=
  foldr (insert_desc keyf) [] l.

(** [d[k].append(x)]; [None] is [KeyError]. *)
Fixpoint dict_append {V} (d : dict (list V)) (k : string) (x : V)
  : option (dict (list V)) :=
  match d with
  | [] => None
  | (k', l) :: q =>
      if String.eqb k' k then Some ((k', l ++ [x]) :: q)
      else q' ← dict_append q k x; Some ((k', l) :: q')
  end.

(** The four statistics of [language_data]. *)
Record LanguageData := mkLanguageData {
  all_bytes : LangStat;
  all_repos : LangStat;
  top_bytes : LangStat;
  top_repos : LangStat
}.

Definition language_data_init : LanguageData :=
  mkLanguageData
    (LangStat_init "My languages by bytes of code on GitHub"
       "bytes of code" "all_bytes")
    (LangStat_init "My languages by presence in GitHub repositories"
       "# of repos" "all_repos")
    (LangStat_init "Top repo languages by bytes of code on GitHub"
       "bytes of code" "top_bytes")
    (LangStat_init "Top languages by GitHub repositories"
       "# of repos" "top_repos").

(** The [for lang, linguist_bytes_count in languages.items()] loop:
    [bytes_count] is computed and the linguist count is what is
    added. *)
Fixpoint add_all_bytes (gh_repo : Repository) (items : list (string * Z))
    (stat : LangStat) : option LangStat :=
  match items with
  | [] => Some stat
  | (lang, linguist_bytes_count) :: q =>
      bytes_count ←
        (if String.eqb lang "Jupyter Notebook"
         then count_jupyter_bytes (get_contents gh_repo)
         else Some linguist_bytes_count);
      add_all_bytes gh_repo q (add stat lang linguist_bytes_count)
  end.

(** The [if languages:] block. *)
Definition record_languages (gh_repo : Repository) (ld : LanguageData)
  : option LanguageData :=
  let languages := get_languages gh_repo in
  match languages with
  | [] => Some ld
  | _ =>
      ab ← add_all_bytes gh_repo languages (all_bytes ld);
      let ar := update (all_repos ld) (keys languages) in
      top_language ← py_max (dict_get languages) (keys languages);
      let tr := add (top_repos ld) top_language 1 in
      top_val ← dict_get languages top_language;
      let tb := add (top_bytes ld) top_language top_val in
      Some (mkLanguageData ab ar tb tr)
  end.

(** State of the loop over the repositories. *)
Record LoopState := mkLoopState {
  language_data : LanguageData;
  st_repos : dict (list Repo)
}.

(** One iteration of [for gh_repo in repos[:5]]. *)
Definition process_repo (include_private : bool) (user : NamedUser)
    (now : datetime) (st : LoopState) (gh_repo : Repository)
  : option LoopState :=
  let is_owner := NamedUser_eqb (repo_owner gh_repo) user in
  let is_contributor := existsb (NamedUser_eqb user) (get_contributors gh_repo) in
  if is_owner || is_contributor then
    ld ← record_languages gh_repo (language_data st);
    if include_private || negb (repo_private gh_repo) then
      repo ← Repo_init gh_repo now;
      repos ← dict_append (st_repos st) (status repo) repo;
      Some (mkLoopState ld repos)
    else Some (mkLoopState ld (st_repos st))
  else Some st.

Fixpoint process_repos (include_private : bool) (user : NamedUser)
    (now : datetime) (st : LoopState) (l : list Repository)
  : option LoopState :=
  match l with
  | [] => Some st
  | gh_repo :: q =>
      st' ← process_repo include_private user now st gh_repo;
      process_repos include_private user now st' q
  end.

Definition loop_init : LoopState :=
  mkLoopState language_data_init ((λ status, (status, [])) <$> status_options).

Record Repos := mkRepos {
  repos : dict (list Repo);
  gists : list Gist
}.

(** [repos[:5]] as the loop iterates it.  The slice of a paginated
    listing yields element 0 as long as the listing could still grow,
    which holds before the first page is fetched: on an empty listing
    the first step indexes an element that is not there and raises
    [IndexError]. *)
Definition first_five {A} (l : list A) : option (list A) :=
  match l with
  | [] => None
  | _ => Some (take 5 l)
  end.

(** [Repos.__init__], apart from the charts [make_plot] writes. *)
Definition Repos_init (github : Github) (include_private : bool)
    (now : datetime) : option Repos :=
  let user := get_user github in
  first ← first_five (get_repos github);
  st ← process_repos include_private user now loop_init first;
  let sorted :=
    (λ '(status, repo_list), (status, sort_desc last_modified repo_list))
      <$> st_repos st in
  let gists :=
    Gist_init <$> List.filter (λ gist, include_private || gist_public gist)
                    (get_gists github) in
  Some (mkRepos sorted (sort_desc g_last_modified gists)).

Definition PROJECTS_HEADER : string := "## Projects" +:+ nl.

Definition status_header (status : string) : string :=
  nl +:+ "### " +:+ status +:+ nl
  +:+ "| Repository | Description | Owner | Language(s) |" +:+ nl
  +:+ "|---|---|---|---|" +:+ nl.

Definition gists_header : string :=
  nl +:+ "### Gists" +:+ nl +:+ "| Description |" +:+ nl +:+ "|---|" +:+ nl.

(** [Repos.markdown_table] *)
Definition markdown_table (self : Repos) : list string :=
  let table := [PROJECTS_HEADER] in
  let table :=
    foldl (λ table '(status, repo_list),
             (table ++ [status_header status]) ++ (Repo_markdown <$> repo_list))
      table (repos self) in
  let table := table ++ [gists_header] in
  table ++ (Gist_markdown <$> gists self).

(** ** main: rewriting README.md *)

(** [file.readline()] on the lines not yet read: the empty string at
    end of file. *)
Definition readline (file : list string) : string * list string :=
  match file with
  | [] => ("", [])
  | line :: rest => (line, rest)
  end.

(** [while line != PROJECTS_HEADER: ...], run for at most [fuel]
    tests of its condition; [None] when they do not suffice. *)
Fixpoint scan_head (fuel : nat) (file head : list string) (line : string)
  : option (list string * list string) :=
  match fuel with
  | O => None
  | S fuel =>
      if negb (String.eqb line PROJECTS_HEADER) then
        let head := head ++ [line] in
        let '(line, file) := readline file in
        scan_head fuel file head line
      else Some (head, file)
  end.

(** [while not line.startswith("## "): ...], likewise. *)
Fixpoint skip_section (fuel : nat) (file : list string) (line : string)
  : option (string * list string) :=
  match fuel with
  | O => None
  | S fuel =>
      if negb (startswith line "## ") then
        let '(line, file) := readline file in
        skip_section fuel file line
      else Some (line, file)
  end.

(** The two [with] blocks of [main]: from the lines of README.md and
    the table to the strings written back. *)
Definition rewrite_readme (fuel : nat) (readme table : list string)
  : option (list string) :=
  let '(line0, file) := readline readme in
  let head := [line0] in
  let '(line, file) := readline file in
  '(head, file) ← scan_head fuel file head line;
  let '(line, file) := readline file in
  '(line, file) ← skip_section fuel file line;
  let tail := [nl +:+ line] ++ file in
  Some (head ++ table ++ tail).

(** What [writelines] leaves in the file. *)
Definition file_text (l : list string) : string := foldr String.append "" l.

(** ** Definitions used to state the properties *)

(** The entries the loop pops, in order, and the worklist it leaves. *)
Equations? visited (contents : list ContentFile) : list ContentFile
  by wf (worklist_size contents) lt :=
  visited [] := [];
  visited [e] := [];
  visited (file_content :: e :: rest) :=
    file_content :: visited ((e :: rest) ++ expand file_content).
Proof. apply (expand_decreases file_content (e :: rest)). Qed.

Equations? unvisited (contents : list ContentFile) : list ContentFile
  by wf (worklist_size contents) lt :=
  unvisited [] := [];
  unvisited [e] := [e];
  unvisited (file_content :: e :: rest) :=
    unvisited ((e :: rest) ++ expand file_content).
Proof. apply (expand_decreases file_content (e :: rest)). Qed.

Fixpoint visit_all (l : list ContentFile) (bytes_count : Z) : option Z :=
  match l with
  | [] => Some bytes_count
  | e :: q => b ← visit e bytes_count; visit_all q b
  end.

(** The count the specification describes: every notebook file anywhere
    in the tree contributes the bytes of its code cells. *)
Fixpoint spec_entry_bytes (e : ContentFile) : option Z :=
  match e with
  | mkContentFile t n nb l =>
      if String.eqb t "dir" then
        (fix go (l : list ContentFile) : option Z :=
           match l with
           | [] => Some 0
           | x :: q => a ← spec_entry_bytes x; b ← go q; Some (a + b)
           end) l
      else if endswith n ".ipynb" then cells ← nb; count_cells cells 0
      else Some 0
  end.

Fixpoint spec_jupyter_bytes (root : list ContentFile) : option Z :=
  match root with
  | [] => Some 0
  | x :: q => a ← spec_entry_bytes x; b ← spec_jupyter_bytes q; Some (a + b)
  end.

(** Microseconds from a fixed origin to [d]. *)
Definition to_micros (d : datetime) : Z :=
  (toordinal d * 86400 + seconds_of_day d) * 1000000 + microsecond d.

(** The three-way priority rule, as the specification words it. *)
Definition status_rule (archived : bool) (updated_at now : datetime)
  : string :=
  if archived then "Archive"
  else if 182 * 86400 * 1000000 <? to_micros now - to_micros updated_at
       then "Stale"
  else "Current".

(** The test [is_owner or is_contributor]. *)
Definition included (user : NamedUser) (gh_repo : Repository) : bool :=
  NamedUser_eqb (repo_owner gh_repo) user
  || existsb (NamedUser_eqb user) (get_contributors gh_repo).

Definition has_language (lang : string) (gh_repo : Repository) : bool :=
  str_in lang (keys (get_languages gh_repo)).

(** What a language mapping of the API satisfies: the keys of a
    dictionary are distinct and byte counts are not negative. *)
Definition wf_languages (gh_repo : Repository) : Prop :=
  NoDup (keys (get_languages gh_repo))
  ∧ Forall (λ kv, 0 ≤ kv.2) (get_languages gh_repo).

Definition stat_le (a b : LangStat) : Prop :=
  ∀ lang, count (counter a) lang ≤ count (counter b) lang.

Definition language_data_le (a b : LanguageData) : Prop :=
  stat_le (all_bytes a) (all_bytes b)
  ∧ stat_le (all_repos a) (all_repos b)
  ∧ stat_le (top_bytes a) (top_bytes b)
  ∧ stat_le (top_repos a) (top_repos b).

(** Occurrences of [lang] in a list of keys. *)
Definition occurrences (lang : string) (l : list string) : Z :=
  Z.of_nat (length (List.filter (String.eqb lang) l)).

(** Sum of the values the items of a mapping give [lang]. *)
Fixpoint bytes_for (lang : string) (items : list (string * Z)) : Z :=
  match items with
  | [] => 0
  | (k, v) :: q => (if decide (k = lang) then v else 0) + bytes_for lang q
  end.

(** What opens a subsection of the table, and a top-level heading of
    the README. *)
Definition subsection_mark : string := nl +:+ "### ".

Definition is_heading (line : string) : bool := startswith line "## ".

(** An entry on which the body of the loop raises: a file named as a
    notebook whose content does not parse or whose code cannot be
    encoded. *)
Definition bad_notebook (e : ContentFile) : Prop :=
  String.eqb (cf_type e) "dir" = false
  ∧ endswith (cf_name e) ".ipynb" = true
  ∧ (cells ← cf_notebook e; count_cells cells 0) = None.

(** The dominant language of a repository, [None] for an empty
    mapping. *)
Definition dominant (gh_repo : Repository) : option string :=
  py_max (dict_get (get_languages gh_repo)) (keys (get_languages gh_repo)).

(** The test [include_private or not gh_repo.private]. *)
Definition visible (include_private : bool) (gh_repo : Repository) : bool :=
  include_private || negb (repo_private gh_repo).

(** The notebooks of a repository that the pass counts are readable:
    the condition concerns only repositories of the user that list the
    notebook language. *)
Definition notebooks_parse (user : NamedUser) (gh_repo : Repository) : Prop :=
  included user gh_repo = true →
  has_language "Jupyter Notebook" gh_repo = true →
  is_Some (count_jupyter_bytes (get_contents gh_repo)).

(** What one repository adds to each of the four counters at [lang]. *)
Definition delta_all_bytes (user : NamedUser) (lang : string)
    (gh_repo : Repository) : Z :=
  if included user gh_repo then bytes_for lang (get_languages gh_repo) else 0.

Definition delta_all_repos (user : NamedUser) (lang : string)
    (gh_repo : Repository) : Z :=
  if included user gh_repo
  then occurrences lang (keys (get_languages gh_repo)) else 0.

Definition delta_top_repos (user : NamedUser) (lang : string)
    (gh_repo : Repository) : Z :=
  if included user gh_repo && bool_decide (dominant gh_repo = Some lang)
  then 1 else 0.

Definition delta_top_bytes (user : NamedUser) (lang : string)
    (gh_repo : Repository) : Z :=
  if included user gh_repo && bool_decide (dominant gh_repo = Some lang)
  then default 0 (dict_get (get_languages gh_repo) lang) else 0.

Definition sum_over (f : Repository → Z) (l : list Repository) : Z :=
  foldr (λ r acc, f r + acc) 0 l.

(** The records of all groups, in the order of the table. *)
Definition all_records (d : dict (list Repo)) : list Repo :=
  concat (snd <$> d).

(** [a] may stand before [b] in a list sorted on [keyf] in reverse:
    the key of [b] is at most the key of [a]. *)
Definition newest_first {A} (keyf : A → string) (a b : A) : Prop :=
  String.leb (keyf b) (keyf a) = true.

(** The test [include_private or gist.public]. *)
Definition gist_visible (include_private : bool) (gist : GistObject) : bool :=
  include_private || gist_public gist.

(** The newline translation of a file opened for reading in text
    mode, as [open('README.md', 'r')] is: a carriage return followed
    by a line feed, and a carriage return alone, are both read as one
    line feed. *)
Fixpoint universal_newlines (s : string) : string :=
  match s with
  | EmptyString => EmptyString
  | String c s' =>
      if Ascii.eqb c "013" then
        match s' with
        | EmptyString => String "010" EmptyString
        | String c' _ =>
            if Ascii.eqb c' "010" then universal_newlines s'
            else String "010" (universal_newlines s')
        end
      else String c (universal_newlines s')
  end.

(** The lines of a translated text: each ends with its line feed
    except possibly the last. *)
Fixpoint split_lines (s : string) : list string :=
  match s with
  | EmptyString => []
  | String c s' =>
      if Ascii.eqb c "010" then String c EmptyString :: split_lines s'
      else match split_lines s' with
           | [] => [String c EmptyString]
           | l :: ls => String c l :: ls
           end
  end.

(** Reading a text file back: the lines [readline] returns one after
    the other, on the text with its newlines translated.  The file is
    read with the encoding it was written with. *)
Definition file_lines (s : string) : list string :=
  split_lines (universal_newlines s).

(** No carriage return in a piece of text. *)
Fixpoint no_cr (s : string) : bool :=
  match s with
  | EmptyString => true
  | String c s' => negb (Ascii.eqb c "013") && no_cr s'
  end.

(** A complete line: no newline but the one that ends it. *)
Fixpoint is_line (l : string) : bool :=
  match l with
  | EmptyString => false
  | String c EmptyString => Ascii.eqb c "010"
  | String c l' => negb (Ascii.eqb c "010") && is_line l'
  end.

(** The lines of the table of [markdown_table], one per line of text. *)
Definition status_header_lines (status : string) : list string :=
  [nl; "### " +:+ status +:+ nl;
   "| Repository | Description | Owner | Language(s) |" +:+ nl;
   "|---|---|---|---|" +:+ nl].

Definition gists_header_lines : list string :=
  [nl; "### Gists" +:+ nl; "| Description |" +:+ nl; "|---|" +:+ nl].

Definition table_body_lines (self : Repos) : list string :=
  concat
    ((λ '(status, repo_list),
        status_header_lines status ++ (Repo_markdown <$> repo_list))
       <$> repos self)
  ++ gists_header_lines ++ (Gist_markdown <$> gists self).

(** Calendar order of two timestamps: by year, then month, then day. *)
Definition date_compare (a b : datetime) : comparison :=
  match year a ?= year b with
  | Eq => match month a ?= month b with
          | Eq => day a ?= day b
          | c => c
          end
  | c => c
  end.

(** The dates the formatted string is meant for. *)
Definition four_digit_date (d : datetime) : Prop :=
  1000 ≤ year d ≤ 9999 ∧ 1 ≤ month d ≤ 12 ∧ 1 ≤ day d ≤ 31.

(** The sum of all the values of a counter: the total height of the
    bars of its chart. *)
Definition total (c : gmap string Z) : Z :=
  map_fold (λ _ v acc, v + acc) 0 c.

Definition sum_values (d : dict Z) : Z := foldr (λ kv acc, kv.2 + acc) 0 d.

Definition has_languages (gh_repo : Repository) : bool :=
  match get_languages gh_repo with [] => false | _ => true end.

(** Every record stands in the group of its status. *)
Definition groups_by_status (d : dict (list Repo)) : Prop :=
  Forall (λ kl, Forall (λ rec, status rec = kl.1) kl.2) d.

(** [Counter.most_common()] without a bound:
    [sorted(self.items(), key=itemgetter(1), reverse=True)], on the
    items in the insertion order of the counter. *)
Fixpoint insert_by_count (x : string * Z) (l : list (string * Z))
  : list (string * Z) :=
  match l with
  | [] => [x]
  | y :: q =>
      if x.2 <? y.2 then y :: insert_by_count x q else x :: y :: q
  end.

Definition most_common (items : dict Z) : dict Z :=
  foldr insert_by_count [] items.

(** The data of the bar chart of [LangStat.make_plot]: the lists [x]
    and [y] handed to the plotting library. *)
Definition make_plot_data (items : dict Z) : list string * list Z :=
  let tuples := most_common items in
  (fst <$> tuples, snd <$> tuples).

(** [items] lists the entries of the counter [c], each key once, in
    some order (the insertion order, which [c] does not record). *)
Definition enumerates (items : dict Z) (c : gmap string Z) : Prop :=
  NoDup (keys items) ∧ ∀ k v, (k, v) ∈ items ↔ c !! k = Some v.

(** No newline in a piece of text. *)
Fixpoint no_newline (s : string) : bool :=
  match s with
  | EmptyString => true
  | String c s' => negb (Ascii.eqb c "010") && no_newline s'
  end.

(** ** Sample data *)

Module Sample.

(** One code cell of 20 + 15 + 2 = 37 bytes and a markdown cell. *)
Definition notebook37 : ContentFile :=
  mkContentFile "file" "analysis.ipynb"
    (Some [mkCell "code"
             [text_of_ascii "import pandas as pd" ++ [10%N];
              text_of_ascii "print('caf" ++ [233%N] ++ text_of_ascii "')"
                ++ [10%N];
              text_of_ascii "x" ++ [10%N]];
           mkCell "markdown" [text_of_ascii "# Results"]])
    [].

Definition readme_md : ContentFile :=
  mkContentFile "file" "README.md" None [].

Definition notebooks_dir : ContentFile :=
  mkContentFile "dir" "notebooks" None [notebook37; readme_md].

Definition me : NamedUser :=
  mkNamedUser "octocat" 1 "https://github.com/octocat".

Definition other : NamedUser :=
  mkNamedUser "hubot" 2 "https://github.com/hubot".

Definition now : datetime := mkDatetime 2020 3 1 12 0 0 0.

Definition jupyter_repo : Repository :=
  mkRepository me "nb" "https://github.com/octocat/nb" (Some "notebooks")
    false false (mkDatetime 2020 2 20 8 30 0 0)
    [("Jupyter Notebook", 50)] [me] [notebook37; readme_md].

Definition private_repo : Repository :=
  mkRepository me "secret" "https://github.com/octocat/secret" None
    true false (mkDatetime 2020 2 1 0 0 0 0)
    [("Python", 900); ("YAML", 100)] [] [readme_md].

Definition archived_repo : Repository :=
  mkRepository other "old" "https://github.com/hubot/old" (Some "legacy")
    false true (mkDatetime 2019 1 26 0 0 0 0)
    [("Go", 500)] [other; me] [readme_md].

Definition gist1 : GistObject :=
  mkGistObject me (Some "snippet") "https://gist.github.com/1" true
    (mkDatetime 2019 5 5 0 0 0 0).

Definition github : Github :=
  mkGithub me [jupyter_repo; private_repo; archived_repo] [gist1].

(** The loop state after the repositories of [l], for the sample
    user and clock. *)
Definition state_after (l : list Repository) : LoopState :=
  default loop_init (process_repos false me now loop_init l).

End Sample.

Module SampleResult.

(** The result for the sample account with private items included,
    and the record of its archived repository. *)
Definition result : Repos :=
  default (mkRepos [] []) (Repos_init Sample.github true Sample.now).

Definition archived_record : Repo :=
  default (mkRepo "" "" None "" "" "")
    (Repo_init Sample.archived_repo Sample.now).

End SampleResult.

Module SampleReadme.

Definition typical : list string :=
  ["# meta-repo" +:+ nl; "Some text." +:+ nl; PROJECTS_HEADER;
   "| old table |" +:+ nl; "## License" +:+ nl; "MIT" +:+ nl].

(** The marker is the first line and a heading follows. *)
Definition marker_first : list string :=
  [PROJECTS_HEADER; "| old table |" +:+ nl; "## About" +:+ nl;
   "text" +:+ nl].

(** As [marker_first], with a second Projects section further down. *)
Definition two_markers : list string :=
  marker_first ++ [PROJECTS_HEADER; "| x |" +:+ nl; "## End" +:+ nl].

(** The table of an aggregation without repositories or gists. *)
Definition empty_table : list string :=
  markdown_table
    (mkRepos [("Current", []); ("Stale", []); ("Archive", [])] []).

End SampleReadme.

(** A listing longer than five with a repository of somebody else in
    it, and the same listing cut at five and without that
    repository. *)
Module SampleListing.

Definition foreign_repo : Repository :=
  mkRepository Sample.other "bot" "https://github.com/hubot/bot" None
    false false (mkDatetime 2020 2 25 0 0 0 0)
    [("Ruby", 70)] [Sample.other] [Sample.readme_md].

Definition long : Github :=
  mkGithub Sample.me
    [foreign_repo; Sample.jupyter_repo; Sample.private_repo;
     foreign_repo; Sample.archived_repo; Sample.jupyter_repo;
     Sample.private_repo]
    [Sample.gist1].

Definition short : Github :=
  mkGithub Sample.me
    [Sample.jupyter_repo; Sample.private_repo; Sample.archived_repo]
    [Sample.gist1].

End SampleListing.

(** * Properties *)

(** ** The worklist loop and its trace *)

Section CountLoop.

Lemma count_loop_visited contents :
  ∀ b, count_loop contents b
       = (b' ← visit_all (visited contents) b; Some (b', unvisited contents)).
Proof.
  remember (worklist_size contents) as n eqn:Hn.
  revert contents Hn.
  induction n as [n IH] using lt_wf_ind; intros contents Hn b.
  destruct contents as [|f [|e rest]]; simp count_loop visited unvisited;
    [done..|].
  simpl. destruct (visit f b) as [b1|]; simpl; [|done].
  eapply IH; [|reflexivity].
  subst n. apply (expand_decreases f (e :: rest)).
Qed.

Lemma unvisited_queue contents :
  contents ≠ [] →
  ∃ e, unvisited contents = [e]
       ∧ contents ++ flat_map expand (visited contents)
         = visited contents ++ [e].
Proof.
  remember (worklist_size contents) as n eqn:Hn.
  revert contents Hn.
  induction n as [n IH] using lt_wf_ind; intros contents Hn Hne.
  destruct contents as [|f [|e rest]]; simp visited unvisited; [done| |].
  - exists f. done.
  - destruct (IH (worklist_size ((e :: rest) ++ expand f)))
      with (contents := (e :: rest) ++ expand f) as (x & Hx & Hq);
      [|reflexivity|done|].
    + subst n. apply (expand_decreases f (e :: rest)).
    + exists x. split; [done|].
      simpl. f_equal. simpl in Hq. rewrite <- Hq.
      by rewrite <- !app_assoc.
Qed.

End CountLoop.

Example count_notebook_first :
  count_jupyter_bytes [Sample.notebook37; Sample.readme_md] = Some 37.
Proof. reflexivity. Qed.

Example count_dir_last :
  count_jupyter_bytes [Sample.readme_md; Sample.notebooks_dir] = Some 0.
Proof. reflexivity. Qed.

Example count_dir_first :
  count_jupyter_bytes [Sample.notebooks_dir; Sample.readme_md] = Some 37.
Proof. reflexivity. Qed.

Example status_sample :
  Repo_status Sample.private_repo Sample.now = "Current"
  ∧ Repo_status Sample.archived_repo Sample.now = "Archive".
Proof. split; reflexivity. Qed.

(** ** Properties of count_jupyter_bytes *)

(** C9.  A root listing of one entry gives 0 whatever the entry is.
    More generally, when the root listing is not empty the loop leaves
    exactly one entry in the worklist: the entries ever put in the
    worklist are the examined ones followed by that entry, and the byte
    count is computed from the examined entries alone. *)
Theorem last_entry_never_examined :
  (∀ x, count_jupyter_bytes [x] = Some 0)
  ∧ ∀ contents b,
      contents ≠ [] →
      ∃ e, unvisited contents = [e]
           ∧ contents ++ flat_map expand (visited contents)
             = visited contents ++ [e]
           ∧ count_loop contents b
             = (b' ← visit_all (visited contents) b; Some (b', [e])).
Proof.
  split.
  - intros x. unfold count_jupyter_bytes. by simp count_loop.
  - intros contents b Hne.
    destruct (unvisited_queue contents Hne) as (e & Hu & Hq).
    exists e. repeat split; [done..|].
    rewrite count_loop_visited. by rewrite Hu.
Qed.

Lemma last_entry_never_examined_witness :
  [Sample.notebooks_dir; Sample.readme_md] ≠ []
  ∧ ∃ e, unvisited [Sample.notebooks_dir; Sample.readme_md] = [e]
         ∧ [Sample.notebooks_dir; Sample.readme_md]
             ++ flat_map expand
                  (visited [Sample.notebooks_dir; Sample.readme_md])
           = visited [Sample.notebooks_dir; Sample.readme_md] ++ [e]
         ∧ count_loop [Sample.notebooks_dir; Sample.readme_md] 0
           = (b' ← visit_all
                     (visited [Sample.notebooks_dir; Sample.readme_md]) 0;
              Some (b', [e])).
Proof.
  split; [discriminate|].
  apply (proj2 last_entry_never_examined
           [Sample.notebooks_dir; Sample.readme_md] 0).
  discriminate.
Defined.

Example trace_dir_first :
  visited [Sample.notebooks_dir; Sample.readme_md]
  = [Sample.notebooks_dir; Sample.readme_md; Sample.notebook37]
  ∧ unvisited [Sample.notebooks_dir; Sample.readme_md] = [Sample.readme_md].
Proof. split; reflexivity. Qed.

(** C2.  On a tree that holds a single notebook with 37 bytes of code
    the traversal returns 0, whereas the sum over the notebook files of
    the tree is 37. *)
Theorem count_jupyter_bytes_misses_last :
  count_jupyter_bytes [Sample.notebook37] = Some 0
  ∧ spec_jupyter_bytes [Sample.notebook37] = Some 37.
Proof. split; reflexivity. Qed.

(** The traversal also stops before a directory that is the only entry
    left, so the notebooks below it are not reached. *)
Lemma count_jupyter_bytes_misses_subtree :
  count_jupyter_bytes [Sample.readme_md; Sample.notebooks_dir] = Some 0
  ∧ spec_jupyter_bytes [Sample.readme_md; Sample.notebooks_dir] = Some 37.
Proof. split; reflexivity. Qed.

Lemma mbind_Some {A B} (f : A → option B) (x : A) : Some x ≫= f = f x.
Proof. reflexivity. Qed.

(** ** Counters *)

Section Counters.

Implicit Types (s : LangStat) (key lang : string) (value : Z).

Lemma count_add s key value lang :
  count (counter (add s key value)) lang
  = count (counter s) lang + (if decide (key = lang) then value else 0).
Proof.
  unfold count, add; simpl. rewrite lookup_insert.
  destruct (decide (key = lang)) as [->|]; simpl; [done|lia].
Qed.

Lemma count_update s (l : list string) lang :
  count (counter (update s l)) lang
  = count (counter s) lang + occurrences lang l.
Proof.
  unfold update, occurrences. revert s.
  induction l as [|k q IH]; intros s; simpl; [lia|].
  rewrite IH, count_add.
  destruct (decide (k = lang)) as [->|Hne].
  - rewrite String.eqb_refl. simpl length. lia.
  - destruct (String.eqb_spec lang k); [congruence|lia].
Qed.

Lemma occurrences_NoDup lang (l : list string) :
  NoDup l →
  occurrences lang l = if str_in lang l then 1 else 0.
Proof.
  unfold occurrences, str_in.
  induction 1 as [|k q Hk Hq IH]; simpl; [done|].
  destruct (String.eqb_spec lang k) as [->|Hne]; simpl; [|done].
  assert (List.filter (String.eqb k) q = []) as ->; [|done].
  clear IH Hq. induction q as [|y q IH]; simpl; [done|].
  destruct (String.eqb_spec k y) as [->|].
  - exfalso. apply Hk. left.
  - apply IH. intros Hin. apply Hk. by right.
Qed.

Lemma occurrences_nonneg lang (l : list string) : 0 ≤ occurrences lang l.
Proof. unfold occurrences. lia. Qed.

(** Whatever [count_jupyter_bytes] returns, the loop adds the
    linguist count of each item. *)
Lemma add_all_bytes_count gh_repo items s s' lang :
  add_all_bytes gh_repo items s = Some s' →
  count (counter s') lang = count (counter s) lang + bytes_for lang items.
Proof.
  revert s. induction items as [|[k v] q IH]; intros s; simpl.
  - intros [= <-]. lia.
  - destruct (if String.eqb k "Jupyter Notebook" then _ else _);
      simpl; [|done].
    intros H. rewrite (IH _ H), count_add. lia.
Qed.

(** The loop raises only if the mapping has the notebook language and
    [count_jupyter_bytes] raises. *)
Lemma add_all_bytes_total gh_repo items s :
  (str_in "Jupyter Notebook" (keys items) = true →
   is_Some (count_jupyter_bytes (get_contents gh_repo))) →
  is_Some (add_all_bytes gh_repo items s).
Proof.
  revert s. induction items as [|[k v] q IH]; intros s Hnb; simpl; [done|].
  simpl in Hnb.
  destruct (String.eqb_spec k "Jupyter Notebook") as [->|Hne].
  - assert (is_Some (count_jupyter_bytes (get_contents gh_repo))) as [n Hn]
      by (by apply Hnb).
    rewrite Hn, mbind_Some. apply IH. intros _. by exists n.
  - rewrite mbind_Some. apply IH. intros Hq. apply Hnb.
    rewrite Hq. apply orb_true_r.
Qed.

End Counters.

(** C1.  For a repository with languages {Jupyter Notebook: 50} whose
    notebook code counts 37 bytes, [count_jupyter_bytes] returns 37 and
    the all_bytes counter of "Jupyter Notebook" goes from 0 to 50. *)
Theorem all_bytes_adds_linguist_count :
  count_jupyter_bytes (get_contents Sample.jupyter_repo) = Some 37
  ∧ ∃ st, process_repo false Sample.me Sample.now loop_init
            Sample.jupyter_repo = Some st
          ∧ count (counter (all_bytes (language_data loop_init)))
              "Jupyter Notebook" = 0
          ∧ count (counter (all_bytes (language_data st)))
              "Jupyter Notebook" = 50.
Proof.
  split; [reflexivity|].
  eexists. split; [vm_compute; reflexivity|]. split; reflexivity.
Qed.

(** ** Status classification *)

Lemma datetime_sub_micros a b : datetime_sub a b = to_micros a - to_micros b.
Proof. unfold datetime_sub, to_micros. lia. Qed.

Lemma Repo_status_rule repo now :
  Repo_status repo now
  = status_rule (repo_archived repo) (repo_updated_at repo) now.
Proof.
  unfold Repo_status, status_rule, six_months, timedelta_days.
  by rewrite datetime_sub_micros.
Qed.

Lemma Repo_status_in_options repo now :
  str_in (Repo_status repo now) status_options = true.
Proof.
  unfold Repo_status.
  destruct (repo_archived repo); [done|].
  by destruct (six_months <? _).
Qed.

(** C3.  [Repo.__init__] always builds a record, and its status is
    given by the archived flag, the update time and the current time
    through the rule: Archive if archived, else Stale if more than 182
    days have elapsed, else Current. *)
Theorem status_is_three_way_rule (repo : Repository) (now : datetime) :
  ∃ r, Repo_init repo now = Some r
       ∧ status r
         = status_rule (repo_archived repo) (repo_updated_at repo) now.
Proof.
  unfold Repo_init. rewrite Repo_status_in_options.
  eexists. split; [reflexivity|]. simpl. apply Repo_status_rule.
Qed.

Example stale_boundary :
  status_rule false (mkDatetime 2019 9 1 12 0 0 0)
    (mkDatetime 2020 3 1 12 0 0 0) = "Current"
  ∧ status_rule false (mkDatetime 2019 9 1 12 0 0 0)
      (mkDatetime 2020 3 1 12 0 0 1) = "Stale".
Proof. split; reflexivity. Qed.

(** ** Dominant language *)

Section DominantLanguage.

Variable keyf : string → option Z.

Lemma max_loop_first (l : list string) :
  ∀ maxitem maxval,
    Forall (λ k, is_Some (keyf k)) l →
    ∃ top tv,
      max_loop keyf l maxitem maxval = Some top
      ∧ ((top = maxitem ∧ tv = maxval
          ∧ Forall (λ k, ∃ w, keyf k = Some w ∧ w ≤ tv) l)
         ∨ (∃ l1 l2, l = l1 ++ top :: l2
              ∧ keyf top = Some tv ∧ maxval < tv
              ∧ Forall (λ k, ∃ w, keyf k = Some w ∧ w < tv) l1
              ∧ Forall (λ k, ∃ w, keyf k = Some w ∧ w ≤ tv) l2)).
Proof.
  induction l as [|item q IH]; intros maxitem maxval Hdef.
  - exists maxitem, maxval. split; [done|]. left. by repeat split.
  - apply Forall_cons in Hdef as [[val Hval] Hq]. simpl. rewrite Hval. simpl.
    destruct (Z.ltb_spec maxval val) as [Hlt|Hge].
    + destruct (IH item val Hq) as (top & tv & Hrun & Hcase).
      exists top, tv. split; [done|]. right.
      destruct Hcase as [(-> & -> & Hall)|(l1 & l2 & -> & Htop & Hv & H1 & H2)].
      * exists [], q. by repeat split.
      * exists (item :: l1), l2. repeat split; [done|lia| |done].
        constructor; [|done]. exists val. split; [done|lia].
    + destruct (IH maxitem maxval Hq) as (top & tv & Hrun & Hcase).
      exists top, tv. split; [done|].
      destruct Hcase as [(-> & -> & Hall)|(l1 & l2 & -> & Htop & Hv & H1 & H2)].
      * left. repeat split. constructor; [|done]. by exists val.
      * right. exists (item :: l1), l2. repeat split; [done..| |done].
        constructor; [|done]. exists val. split; [done|lia].
Qed.

End DominantLanguage.

Lemma dict_get_entry {V} (d : dict V) k v :
  NoDup (keys d) → (k, v) ∈ d → dict_get d k = Some v.
Proof.
  induction d as [|[k' v'] q IH]; simpl; intros Hnd Hin.
  - by apply elem_of_nil in Hin.
  - apply NoDup_cons in Hnd as [Hk' Hq].
    apply elem_of_cons in Hin as [[= -> ->]|Hin].
    + by rewrite String.eqb_refl.
    + destruct (String.eqb_spec k' k) as [->|]; [|by apply IH].
      exfalso. apply Hk'. unfold keys.
      apply (list_elem_of_fmap_2 fst) in Hin. done.
  Qed.

Lemma dict_get_keys {V} (d : dict V) :
  Forall (λ k, is_Some (dict_get d k)) (keys d).
Proof.
  apply Forall_forall. intros k Hk.
  induction d as [|[k' v'] q IH]; simpl in *; [by apply elem_of_nil in Hk|].
  destruct (String.eqb_spec k' k); [done|].
  apply elem_of_cons in Hk as [->|Hk]; [done|by apply IH].
Qed.

Lemma entries_bound (P : Z → Prop) (d sub : dict Z) :
  NoDup (keys d) →
  sub ⊆ d →
  Forall (λ k, ∃ w, dict_get d k = Some w ∧ P w) (keys sub) →
  Forall (λ kv, P kv.2) sub.
Proof.
  intros Hnd Hsub Hall. apply Forall_forall. intros [k w] Hin. simpl.
  rewrite Forall_forall in Hall.
  destruct (Hall k) as (w' & Hget & Hw').
  - unfold keys. by apply (list_elem_of_fmap_2 fst) in Hin.
  - rewrite (dict_get_entry d k w Hnd (Hsub _ Hin)) in Hget. congruence.
Qed.

(** C4.  For a non-empty mapping, the language chosen by
    [max(languages, key=lambda k: languages[k])] is the key of an
    entry whose value no entry exceeds and every earlier entry is
    strictly below; a mapping of one entry yields that entry's key. *)
Theorem dominant_language_first_max (languages : dict Z)
    (Hne : languages ≠ []) (Hnd : NoDup (keys languages)) :
  ∃ d1 top tv d2,
    languages = d1 ++ (top, tv) :: d2
    ∧ py_max (dict_get languages) (keys languages) = Some top
    ∧ dict_get languages top = Some tv
    ∧ Forall (λ kv, kv.2 < tv) d1
    ∧ Forall (λ kv, kv.2 ≤ tv) d2
    ∧ (∀ k v, languages = [(k, v)] → top = k).
Proof.
  destruct languages as [|[k0 v0] q]; [done|]. clear Hne.
  pose proof (dict_get_keys ((k0, v0) :: q)) as Hdef.
  change (keys ((k0, v0) :: q)) with (k0 :: keys q) in Hdef |- *.
  apply Forall_cons in Hdef as [_ Hdef].
  assert (dict_get ((k0, v0) :: q) k0 = Some v0) as Hk0
    by (simpl; by rewrite String.eqb_refl).
  unfold py_max. rewrite Hk0. simpl mbind.
  destruct (max_loop_first (dict_get ((k0, v0) :: q)) (keys q) k0 v0 Hdef)
    as (top & tv & Hrun & Hcase).
  destruct Hcase as [(-> & -> & Hall)|(l1 & l2 & Hsplit & Htop & Hv & H1 & H2)].
  - exists [], k0, v0, q. repeat split; [done..| | |].
    + constructor.
    + apply (entries_bound (λ w, w ≤ v0) ((k0, v0) :: q)); [done| |done].
      intros x Hx. by right.
    + by intros k v [= -> _ _].
  - unfold keys in Hsplit.
    apply fmap_app_inv in Hsplit as (q1 & q2' & Hl1 & Hq2 & ->).
    symmetry in Hq2. apply fmap_cons_inv in Hq2 as ([k' v'] & q2 & Hk' & Hl2 & ->).
    simpl in Hk'. subst k' l1 l2.
    assert (v' = tv) as ->.
    { rewrite (dict_get_entry _ top v' Hnd) in Htop; [congruence|].
      right. apply elem_of_app. right. left. }
    exists ((k0, v0) :: q1), top, tv, q2. repeat split; [done..| | |].
    + constructor; [done|].
      apply (entries_bound (λ w, w < tv) ((k0, v0) :: q1 ++ (top, tv) :: q2));
        [done| |done].
      intros x Hx. right. apply elem_of_app. by left.
    + apply (entries_bound (λ w, w ≤ tv) ((k0, v0) :: q1 ++ (top, tv) :: q2));
        [done| |done].
      intros x Hx. right. apply elem_of_app. right. by right.
    + intros k v [= _ _ Hq]. by destruct q1.
Qed.

Lemma dominant_language_first_max_witness :
  [("Python", 900); ("YAML", 100); ("R", 900)] ≠ []
  ∧ NoDup (keys [("Python", 900); ("YAML", 100); ("R", 900)])
  ∧ ∃ d1 top tv d2,
      [("Python", 900); ("YAML", 100); ("R", 900)] = d1 ++ (top, tv) :: d2
      ∧ py_max (dict_get [("Python", 900); ("YAML", 100); ("R", 900)])
          (keys [("Python", 900); ("YAML", 100); ("R", 900)]) = Some top
      ∧ dict_get [("Python", 900); ("YAML", 100); ("R", 900)] top = Some tv
      ∧ Forall (λ kv, kv.2 < tv) d1
      ∧ Forall (λ kv, kv.2 ≤ tv) d2
      ∧ (∀ k v, [("Python", 900); ("YAML", 100); ("R", 900)] = [(k, v)] →
           top = k).
Proof.
  split; [discriminate|].
  assert (NoDup (keys [("Python", 900); ("YAML", 100); ("R", 900)])) as Hnd.
  { refine (bool_decide_unpack _ _). vm_compute. exact I. }
  split; [exact Hnd|].
  apply (dominant_language_first_max
           [("Python", 900); ("YAML", 100); ("R", 900)]);
    [discriminate|exact Hnd].
Defined.

Example dominant_tie_first :
  py_max (dict_get [("Python", 900); ("YAML", 100); ("R", 900)])
    (keys [("Python", 900); ("YAML", 100); ("R", 900)]) = Some "Python".
Proof. reflexivity. Qed.

Example dominant_single k v :
  py_max (dict_get [(k, v)]) (keys [(k, v)]) = Some k.
Proof. simpl. by rewrite String.eqb_refl. Qed.

(** ** The pass over the repositories *)

Section Pass.

Variables (include_private : bool) (user : NamedUser) (now : datetime).

Lemma language_data_le_refl ld : language_data_le ld ld.
Proof. repeat split; intros lang; lia. Qed.

Lemma language_data_le_trans a b c :
  language_data_le a b → language_data_le b c → language_data_le a c.
Proof.
  intros (H1 & H2 & H3 & H4) (K1 & K2 & K3 & K4).
  repeat split; intros lang;
    [specialize (H1 lang); specialize (K1 lang)
    |specialize (H2 lang); specialize (K2 lang)
    |specialize (H3 lang); specialize (K3 lang)
    |specialize (H4 lang); specialize (K4 lang)]; lia.
Qed.

Lemma dict_get_elem {V} (d : dict V) k v :
  dict_get d k = Some v → (k, v) ∈ d.
Proof.
  induction d as [|[k' v'] q IH]; simpl; [done|].
  destruct (String.eqb_spec k' k) as [->|].
  - intros [= ->]. left.
  - intros H. right. by apply IH.
Qed.

Lemma bytes_for_nonneg lang (items : list (string * Z)) :
  Forall (λ kv, 0 ≤ kv.2) items → 0 ≤ bytes_for lang items.
Proof.
  induction 1 as [|[k v] q Hv Hq IH]; simpl in *; [lia|].
  destruct (decide (k = lang)); lia.
Qed.

Lemma py_max_total (d : dict Z) :
  d ≠ [] →
  ∃ top tv, py_max (dict_get d) (keys d) = Some top
            ∧ dict_get d top = Some tv.
Proof.
  destruct d as [|[k0 v0] q]; [done|]. intros _.
  pose proof (dict_get_keys ((k0, v0) :: q)) as Hdef.
  change (keys ((k0, v0) :: q)) with (k0 :: keys q) in Hdef |- *.
  apply Forall_cons in Hdef as [_ Hdef].
  assert (dict_get ((k0, v0) :: q) k0 = Some v0) as Hk0
    by (simpl; by rewrite String.eqb_refl).
  unfold py_max. rewrite Hk0. simpl mbind.
  destruct (max_loop_first (dict_get ((k0, v0) :: q)) (keys q) k0 v0 Hdef)
    as (top & tv & Hrun & [(-> & -> & _)|(l1 & l2 & _ & Htop & _)]);
    eauto.
Qed.

(** Effect of the [if languages:] block on the four counters. *)
Lemma record_languages_counts gh_repo ld ld' :
  record_languages gh_repo ld = Some ld' →
  (∀ lang, count (counter (all_bytes ld')) lang
           = count (counter (all_bytes ld)) lang
             + bytes_for lang (get_languages gh_repo))
  ∧ (∀ lang, count (counter (all_repos ld')) lang
             = count (counter (all_repos ld)) lang
               + occurrences lang (keys (get_languages gh_repo)))
  ∧ (get_languages gh_repo = [] ∧ ld' = ld
     ∨ ∃ top tv,
         py_max (dict_get (get_languages gh_repo))
           (keys (get_languages gh_repo)) = Some top
         ∧ dict_get (get_languages gh_repo) top = Some tv
         ∧ (∀ lang, count (counter (top_bytes ld')) lang
                    = count (counter (top_bytes ld)) lang
                      + (if decide (top = lang) then tv else 0))
         ∧ (∀ lang, count (counter (top_repos ld')) lang
                    = count (counter (top_repos ld)) lang
                      + (if decide (top = lang) then 1 else 0))).
Proof.
  unfold record_languages.
  destruct (get_languages gh_repo) as [|kv q] eqn:Hl.
  { intros [= <-]. repeat split;
      [intros; unfold occurrences; simpl; lia ..|]. by left. }
  intros H.
  apply bind_Some in H as (ab & Hab & H).
  apply bind_Some in H as (top & Htop & H).
  apply bind_Some in H as (tv & Htv & H).
  injection H as <-. cbn [all_bytes all_repos top_bytes top_repos].
  repeat split.
  - intros lang. apply (add_all_bytes_count _ _ _ _ _ Hab).
  - intros lang. exact (count_update (all_repos ld) (keys (kv :: q)) lang).
  - right. exists top, tv. repeat split; [done|done|..];
      intros lang; apply count_add.
Qed.

Lemma record_languages_total gh_repo ld :
  (has_language "Jupyter Notebook" gh_repo = true →
   is_Some (count_jupyter_bytes (get_contents gh_repo))) →
  is_Some (record_languages gh_repo ld).
Proof.
  unfold has_language, record_languages. intros Hnb.
  destruct (get_languages gh_repo) as [|kv q] eqn:Hl; [done|].
  destruct (add_all_bytes_total gh_repo (kv :: q) (all_bytes ld) Hnb)
    as [ab ->].
  rewrite mbind_Some.
  destruct (py_max_total (kv :: q)) as (top & tv & -> & Htv); [done|].
  rewrite mbind_Some, Htv. done.
Qed.

Lemma record_languages_mono gh_repo ld ld' :
  wf_languages gh_repo →
  record_languages gh_repo ld = Some ld' →
  language_data_le ld ld'.
Proof.
  intros [Hnd Hpos] Hrec.
  destruct (record_languages_counts _ _ _ Hrec) as (Hab & Har & Htop).
  split; [|split].
  - intros lang. rewrite Hab.
    pose proof (bytes_for_nonneg lang _ Hpos). lia.
  - intros lang. rewrite Har.
    pose proof (occurrences_nonneg lang (keys (get_languages gh_repo))). lia.
  - destruct Htop as [[_ ->]|(top & tv & _ & Htv & Htb & Htr)].
    + split; intros lang; lia.
    + apply dict_get_elem in Htv.
      rewrite Forall_forall in Hpos. specialize (Hpos _ Htv). simpl in Hpos.
      split; intros lang; [rewrite Htb|rewrite Htr];
        destruct (decide (top = lang)); lia.
Qed.

Lemma process_repo_language_data st gh_repo st' :
  process_repo include_private user now st gh_repo = Some st' →
  if included user gh_repo
  then record_languages gh_repo (language_data st) = Some (language_data st')
  else st' = st.
Proof.
  unfold process_repo, included.
  destruct (_ || _); [|by intros [= <-]].
  intros H. apply bind_Some in H as (ld & -> & H). f_equal.
  destruct (include_private || negb _).
  - apply bind_Some in H as (repo & _ & H).
    apply bind_Some in H as (d & _ & H). by injection H as <-.
  - by injection H as <-.
Qed.

Lemma process_repo_mono st gh_repo st' :
  wf_languages gh_repo →
  process_repo include_private user now st gh_repo = Some st' →
  language_data_le (language_data st) (language_data st').
Proof.
  intros Hwf Hstep. apply process_repo_language_data in Hstep.
  destruct (included user gh_repo).
  - by eapply record_languages_mono.
  - subst. apply language_data_le_refl.
Qed.

Lemma process_repos_mono (l : list Repository) :
  ∀ st st',
    Forall wf_languages l →
    process_repos include_private user now st l = Some st' →
    language_data_le (language_data st) (language_data st').
Proof.
  induction l as [|r q IH]; intros st st' Hwf; simpl.
  - intros [= <-]. apply language_data_le_refl.
  - apply Forall_cons in Hwf as [Hr Hq].
    intros H. apply bind_Some in H as (st1 & Hstep & Hrest).
    eapply language_data_le_trans;
      [by eapply process_repo_mono | by eapply IH].
Qed.

Lemma process_repo_presence st gh_repo st' lang :
  NoDup (keys (get_languages gh_repo)) →
  process_repo include_private user now st gh_repo = Some st' →
  count (counter (all_repos (language_data st'))) lang
  = count (counter (all_repos (language_data st))) lang
    + (if included user gh_repo && has_language lang gh_repo then 1 else 0).
Proof.
  intros Hnd Hstep. apply process_repo_language_data in Hstep.
  destruct (included user gh_repo); simpl.
  - destruct (record_languages_counts _ _ _ Hstep) as (_ & Har & _).
    rewrite Har, occurrences_NoDup by done. done.
  - subst. lia.
Qed.

Lemma process_repos_presence (l : list Repository) lang :
  ∀ st st',
    Forall wf_languages l →
    process_repos include_private user now st l = Some st' →
    count (counter (all_repos (language_data st'))) lang
    = count (counter (all_repos (language_data st))) lang
      + Z.of_nat (length (List.filter
                            (λ r, included user r && has_language lang r) l)).
Proof.
  induction l as [|r q IH]; intros st st' Hwf; simpl.
  - intros [= <-]. lia.
  - apply Forall_cons in Hwf as [[Hnd _] Hq].
    intros H. apply bind_Some in H as (st1 & Hstep & Hrest).
    rewrite (IH _ _ Hq Hrest), (process_repo_presence _ _ _ lang Hnd Hstep).
    destruct (included user r && has_language lang r); simpl length; lia.
Qed.

Lemma process_repos_app (l1 l2 : list Repository) st :
  process_repos include_private user now st (l1 ++ l2)
  = (st1 ← process_repos include_private user now st l1;
     process_repos include_private user now st1 l2).
Proof.
  revert st. induction l1 as [|r q IH]; intros st; simpl; [done|].
  destruct (process_repo _ _ _ st r); simpl; [apply IH|done].
Qed.

End Pass.

Lemma sample_wf :
  Forall wf_languages (take 5 (get_repos Sample.github)).
Proof.
  repeat constructor; simpl;
    try (refine (bool_decide_unpack _ _); vm_compute; exact I); lia.
Defined.

(** C5.  At any point of the pass the counters are at least what they
    were at the start and at most what they are at the end, for each of
    the four statistics and each language; at the end the all_repos
    counter of a language is the number of repositories among those
    iterated over that the user owns or contributes to and whose
    language mapping has that language. *)
Theorem counters_monotone_presence_count
    (github : Github) (include_private : bool) (now : datetime)
    (pre post : list Repository) (mid fin : LoopState)
    (Hsplit : take 5 (get_repos github) = pre ++ post)
    (Hwf : Forall wf_languages (take 5 (get_repos github)))
    (Hpre : process_repos include_private (get_user github) now
              loop_init pre = Some mid)
    (Hpost : process_repos include_private (get_user github) now
               mid post = Some fin) :
  language_data_le (language_data loop_init) (language_data mid)
  ∧ language_data_le (language_data mid) (language_data fin)
  ∧ ∀ lang,
      count (counter (all_repos (language_data fin))) lang
      = Z.of_nat
          (length
             (List.filter
                (λ r, included (get_user github) r && has_language lang r)
                (take 5 (get_repos github)))).
Proof.
  pose proof Hwf as Hwf'. rewrite Hsplit in Hwf'.
  apply Forall_app in Hwf' as [Hwf1 Hwf2].
  split; [exact (process_repos_mono _ _ _ pre _ _ Hwf1 Hpre)|].
  split; [exact (process_repos_mono _ _ _ post _ _ Hwf2 Hpost)|].
  intros lang.
  assert (process_repos include_private (get_user github) now loop_init
            (take 5 (get_repos github)) = Some fin) as Hrun.
  { rewrite Hsplit, process_repos_app, Hpre. exact Hpost. }
  rewrite (process_repos_presence _ _ _ _ lang _ _ Hwf Hrun).
  reflexivity.
Qed.

Lemma counters_monotone_presence_count_witness :
  language_data_le (language_data loop_init)
    (language_data (Sample.state_after [Sample.jupyter_repo]))
  ∧ language_data_le
      (language_data (Sample.state_after [Sample.jupyter_repo]))
      (language_data
         (Sample.state_after (take 5 (get_repos Sample.github))))
  ∧ ∀ lang,
      count
        (counter
           (all_repos
              (language_data
                 (Sample.state_after (take 5 (get_repos Sample.github))))))
        lang
      = Z.of_nat
          (length
             (List.filter
                (λ r, included (get_user Sample.github) r
                      && has_language lang r)
                (take 5 (get_repos Sample.github)))).
Proof.
  apply (counters_monotone_presence_count Sample.github false Sample.now
           [Sample.jupyter_repo]
           [Sample.private_repo; Sample.archived_repo]).
  - reflexivity.
  - exact sample_wf.
  - vm_compute. reflexivity.
  - vm_compute. reflexivity.
Defined.

Lemma str_in_elem (x : string) (l : list string) :
  x ∈ l → str_in x l = true.
Proof.
  unfold str_in. induction 1 as [x q|x y q Hin IH]; simpl.
  - by rewrite String.eqb_refl.
  - rewrite IH. apply orb_true_r.
Qed.

Lemma bytes_for_notin lang (d : dict Z) :
  lang ∉ keys d → bytes_for lang d = 0.
Proof.
  induction d as [|[k v] q IH]; simpl; [done|].
  intros Hnot. apply not_elem_of_cons in Hnot as [Hne Hq].
  destruct (decide (k = lang)); [congruence|]. rewrite IH; [lia|done].
Qed.

Lemma bytes_for_dict_get lang (d : dict Z) v :
  NoDup (keys d) → dict_get d lang = Some v → bytes_for lang d = v.
Proof.
  induction d as [|[k w] q IH]; simpl; [done|].
  intros Hnd. apply NoDup_cons in Hnd as [Hk Hq].
  destruct (String.eqb_spec k lang) as [->|Hne].
  - intros [= ->]. rewrite decide_True by done.
    rewrite bytes_for_notin; [lia|done].
  - intros Hget. rewrite decide_False by done. rewrite IH; [lia|done..].
Qed.

Lemma dict_get_None_notin {V} (d : dict V) k :
  dict_get d k = None → k ∉ keys d.
Proof.
  intros Hnone Hin. pose proof (dict_get_keys d) as Hall.
  rewrite Forall_forall in Hall. destruct (Hall k Hin) as [v Hv]. congruence.
Qed.

Lemma str_in_notin (x : string) (l : list string) :
  x ∉ l → str_in x l = false.
Proof.
  unfold str_in. induction l as [|y q IH]; simpl; [done|].
  intros Hnot. apply not_elem_of_cons in Hnot as [Hne Hq].
  rewrite IH by done. by destruct (String.eqb_spec x y).
Qed.

(** C8.  With [include_private] false, a private repository that the
    user owns, with a non-empty language mapping, updates the four
    counters while no record is appended for it: every language of
    the mapping gains its linguist byte count in all_bytes and one in
    all_repos, the language [top] that [max] selects, of byte count
    [tv], gains one in top_repos and [tv] in top_bytes, and the
    counters are unchanged at every other language; so the statistics
    differ from what they were.  The iteration returns unless the
    repository has the notebook language and a notebook fails to
    parse. *)
Theorem private_repo_counted_not_listed
    (user : NamedUser) (now : datetime) (st : LoopState) (r : Repository)
    (Howner : NamedUser_eqb (repo_owner r) user = true)
    (Hprivate : repo_private r = true)
    (Hlang : get_languages r ≠ [])
    (Hnd : NoDup (keys (get_languages r)))
    (Hnb : has_language "Jupyter Notebook" r = true →
           is_Some (count_jupyter_bytes (get_contents r))) :
  ∃ st' top tv,
    process_repo false user now st r = Some st'
    ∧ st_repos st' = st_repos st
    ∧ (∀ lang, lang ∈ keys (get_languages r) →
         count (counter (all_repos (language_data st'))) lang
         = count (counter (all_repos (language_data st))) lang + 1)
    ∧ language_data st' ≠ language_data st
    ∧ (∀ lang v, dict_get (get_languages r) lang = Some v →
         count (counter (all_bytes (language_data st'))) lang
         = count (counter (all_bytes (language_data st))) lang + v)
    ∧ (∀ lang, dict_get (get_languages r) lang = None →
         count (counter (all_bytes (language_data st'))) lang
         = count (counter (all_bytes (language_data st))) lang
         ∧ count (counter (all_repos (language_data st'))) lang
           = count (counter (all_repos (language_data st))) lang)
    ∧ py_max (dict_get (get_languages r)) (keys (get_languages r))
      = Some top
    ∧ dict_get (get_languages r) top = Some tv
    ∧ count (counter (top_repos (language_data st'))) top
      = count (counter (top_repos (language_data st))) top + 1
    ∧ count (counter (top_bytes (language_data st'))) top
      = count (counter (top_bytes (language_data st))) top + tv
    ∧ (∀ lang, lang ≠ top →
         count (counter (top_repos (language_data st'))) lang
         = count (counter (top_repos (language_data st))) lang
         ∧ count (counter (top_bytes (language_data st'))) lang
           = count (counter (top_bytes (language_data st))) lang).
Proof.
  destruct (record_languages_total r (language_data st) Hnb) as [ld Hld].
  destruct (record_languages_counts _ _ _ Hld)
    as (Hab & Har & [[Hnil _]|(top & tv & Hmax & Htv & Htb & Htr)]);
    [done|].
  exists (mkLoopState ld (st_repos st)), top, tv.
  assert (∀ lang, lang ∈ keys (get_languages r) →
            count (counter (all_repos ld)) lang
            = count (counter (all_repos (language_data st))) lang + 1) as Hinc.
  { intros lang Hin.
    rewrite Har, occurrences_NoDup by done. by rewrite str_in_elem. }
  cbn [language_data st_repos].
  split; [|split; [done|split; [done|split; [|split; [|split; [|split;
    [done|split; [done|split; [|split]]]]]]]]].
  - unfold process_repo. rewrite Howner, Hprivate, Hld. reflexivity.
  - intros Heq.
    destruct (get_languages r) as [|[k v] q]; [done|].
    specialize (Hinc k (list_elem_of_here _ _)). rewrite Heq in Hinc. lia.
  - intros lang v Hv. by rewrite Hab, (bytes_for_dict_get _ _ _ Hnd Hv).
  - intros lang Hnone. apply dict_get_None_notin in Hnone.
    rewrite Hab, Har, bytes_for_notin, occurrences_NoDup by done.
    rewrite str_in_notin by done. lia.
  - rewrite Htr, decide_True by done. done.
  - rewrite Htb, decide_True by done. done.
  - intros lang Hne. rewrite Htr, Htb, !decide_False by done. lia.
Qed.

Lemma private_repo_counted_not_listed_witness :
  ∃ st' top tv,
    process_repo false Sample.me Sample.now loop_init Sample.private_repo = Some st'
    ∧ st_repos st' = st_repos loop_init
    ∧ (∀ lang, lang ∈ keys (get_languages Sample.private_repo) →
         count (counter (all_repos (language_data st'))) lang
         = count (counter (all_repos (language_data loop_init))) lang + 1)
    ∧ language_data st' ≠ language_data loop_init
    ∧ (∀ lang v, dict_get (get_languages Sample.private_repo) lang = Some v →
         count (counter (all_bytes (language_data st'))) lang
         = count (counter (all_bytes (language_data loop_init))) lang + v)
    ∧ (∀ lang, dict_get (get_languages Sample.private_repo) lang = None →
         count (counter (all_bytes (language_data st'))) lang
         = count (counter (all_bytes (language_data loop_init))) lang
         ∧ count (counter (all_repos (language_data st'))) lang
           = count (counter (all_repos (language_data loop_init))) lang)
    ∧ py_max (dict_get (get_languages Sample.private_repo)) (keys (get_languages Sample.private_repo))
      = Some top
    ∧ dict_get (get_languages Sample.private_repo) top = Some tv
    ∧ count (counter (top_repos (language_data st'))) top
      = count (counter (top_repos (language_data loop_init))) top + 1
    ∧ count (counter (top_bytes (language_data st'))) top
      = count (counter (top_bytes (language_data loop_init))) top + tv
    ∧ (∀ lang, lang ≠ top →
         count (counter (top_repos (language_data st'))) lang
         = count (counter (top_repos (language_data loop_init))) lang
         ∧ count (counter (top_bytes (language_data st'))) lang
           = count (counter (top_bytes (language_data loop_init))) lang).
Proof.
  apply (private_repo_counted_not_listed Sample.me Sample.now loop_init
           Sample.private_repo).
  - reflexivity.
  - reflexivity.
  - discriminate.
  - refine (bool_decide_unpack _ _). vm_compute. exact I.
  - discriminate.
Defined.

(** The whole pass on an account whose only repository is private:
    the table has no row, and with [include_private] it has one. *)
Example private_only_table :
  markdown_table
    <$> Repos_init (mkGithub Sample.me [Sample.private_repo] []) false
          Sample.now
  = Some SampleReadme.empty_table
  ∧ (length ∘ markdown_table)
      <$> Repos_init (mkGithub Sample.me [Sample.private_repo] []) true
            Sample.now
    = Some (length SampleReadme.empty_table + 1)%nat.
Proof. split; vm_compute; reflexivity. Qed.

(** ** Layout of the table *)

Section TableLayout.

Lemma dict_append_keys {V} (d : dict (list V)) k x d' :
  dict_append d k x = Some d' → keys d' = keys d.
Proof.
  revert d'. induction d as [|[k' l] q IH]; intros d'; simpl; [done|].
  destruct (String.eqb k' k).
  - by intros [= <-].
  - intros H. apply bind_Some in H as (q' & Hq' & [= <-]).
    simpl. f_equal. by apply IH.
Qed.

Lemma process_repo_keys ip user now st gh_repo st' :
  process_repo ip user now st gh_repo = Some st' →
  keys (st_repos st') = keys (st_repos st).
Proof.
  unfold process_repo. destruct (_ || _); [|by intros [= <-]].
  intros H. apply bind_Some in H as (ld & _ & H).
  destruct (ip || negb _).
  - apply bind_Some in H as (repo & _ & H).
    apply bind_Some in H as (d & Hd & [= <-]). simpl.
    by eapply dict_append_keys.
  - by injection H as <-.
Qed.

Lemma process_repos_keys ip user now (l : list Repository) :
  ∀ st st',
    process_repos ip user now st l = Some st' →
    keys (st_repos st') = keys (st_repos st).
Proof.
  induction l as [|r q IH]; intros st st'; simpl; [by intros [= <-]|].
  intros H. apply bind_Some in H as (st1 & Hstep & Hrest).
  rewrite (IH _ _ Hrest). by eapply process_repo_keys.
Qed.

Lemma no_mark_in_rows {A} (f : A → string) (l : list A) :
  (∀ x, startswith (f x) subsection_mark = false) →
  List.filter (λ s, startswith s subsection_mark) (f <$> l) = [].
Proof.
  intros Hf. induction l as [|x q IH]; simpl; [done|]. by rewrite Hf.
Qed.

Lemma Repo_markdown_no_mark r :
  startswith (Repo_markdown r) subsection_mark = false.
Proof. reflexivity. Qed.

Lemma Gist_markdown_no_mark g :
  startswith (Gist_markdown g) subsection_mark = false.
Proof. reflexivity. Qed.

End TableLayout.

(** C10.  The table of every aggregation result starts with the
    Projects header "## Projects\n", then has the subsections Current,
    Stale and Archive in this order, each with its header element (an
    empty line, the line "### " and the status, and the two lines that
    open a table of four columns) followed by its rows, then the
    Gists header (an empty line, "### Gists" and the two lines that
    open a table of one column) and the gist rows; the header elements
    are there whatever the groups hold, and no other element of the
    table opens a subsection.  The headers are written out character
    by character, [lf] being the line feed. *)
Theorem markdown_table_layout
    (github : Github) (include_private : bool) (now : datetime) (R : Repos)
    (Hinit : Repos_init github include_private now = Some R) :
  let lf := String "010"%char "" in
  let columns :=
    "| Repository | Description | Owner | Language(s) |" +:+ lf
    +:+ "|---|---|---|---|" +:+ lf in
  let current_header := lf +:+ "### Current" +:+ lf +:+ columns in
  let stale_header := lf +:+ "### Stale" +:+ lf +:+ columns in
  let archive_header := lf +:+ "### Archive" +:+ lf +:+ columns in
  let gists_head :=
    lf +:+ "### Gists" +:+ lf +:+ "| Description |" +:+ lf
    +:+ "|---|" +:+ lf in
  ∃ current stale archive,
    repos R = [("Current", current); ("Stale", stale); ("Archive", archive)]
    ∧ markdown_table R
      = ["## Projects" +:+ lf]
        ++ [current_header] ++ (Repo_markdown <$> current)
        ++ [stale_header] ++ (Repo_markdown <$> stale)
        ++ [archive_header] ++ (Repo_markdown <$> archive)
        ++ [gists_head] ++ (Gist_markdown <$> gists R)
    ∧ List.filter (λ s, startswith s (lf +:+ "### ")) (markdown_table R)
      = [current_header; stale_header; archive_header; gists_head].
Proof.
  cbv zeta.
  unfold Repos_init in Hinit.
  apply bind_Some in Hinit as (first & _ & Hinit).
  apply bind_Some in Hinit as (st & Hrun & [= <-]).
  apply process_repos_keys in Hrun.
  destruct (st_repos st) as [|[k1 l1] [|[k2 l2] [|[k3 l3] [|? ?]]]];
    try discriminate Hrun.
  injection Hrun as -> -> ->.
  eexists _, _, _. split; [reflexivity|].
  assert (markdown_table
            {| repos := [("Current", sort_desc last_modified l1);
                         ("Stale", sort_desc last_modified l2);
                         ("Archive", sort_desc last_modified l3)];
               gists := sort_desc g_last_modified
                          (Gist_init
                             <$> List.filter
                                   (λ gist, include_private || gist_public gist)
                                   (get_gists github)) |}
          = [PROJECTS_HEADER]
            ++ [status_header "Current"]
            ++ (Repo_markdown <$> sort_desc last_modified l1)
            ++ [status_header "Stale"]
            ++ (Repo_markdown <$> sort_desc last_modified l2)
            ++ [status_header "Archive"]
            ++ (Repo_markdown <$> sort_desc last_modified l3)
            ++ [gists_header]
            ++ (Gist_markdown
                  <$> sort_desc g_last_modified
                        (Gist_init
                           <$> List.filter
                                 (λ gist, include_private || gist_public gist)
                                 (get_gists github)))) as Htable.
  { unfold markdown_table. cbn [repos gists foldl].
    rewrite <- !app_assoc. reflexivity. }
  split; [exact Htable|].
  cbn [fmap list_fmap] in Htable |- *. rewrite Htable.
  change (String "010" "" +:+ "### ") with subsection_mark.
  rewrite !List.filter_app.
  rewrite !(no_mark_in_rows Repo_markdown) by apply Repo_markdown_no_mark.
  rewrite (no_mark_in_rows Gist_markdown) by apply Gist_markdown_no_mark.
  reflexivity.
Qed.

Lemma markdown_table_layout_witness :
  ∃ R, Repos_init Sample.github false Sample.now = Some R
  ∧
  let lf := String "010"%char "" in
  let columns :=
    "| Repository | Description | Owner | Language(s) |" +:+ lf
    +:+ "|---|---|---|---|" +:+ lf in
  let current_header := lf +:+ "### Current" +:+ lf +:+ columns in
  let stale_header := lf +:+ "### Stale" +:+ lf +:+ columns in
  let archive_header := lf +:+ "### Archive" +:+ lf +:+ columns in
  let gists_head :=
    lf +:+ "### Gists" +:+ lf +:+ "| Description |" +:+ lf
    +:+ "|---|" +:+ lf in
  ∃ current stale archive,
    repos R = [("Current", current); ("Stale", stale); ("Archive", archive)]
    ∧ markdown_table R
      = ["## Projects" +:+ lf]
        ++ [current_header] ++ (Repo_markdown <$> current)
        ++ [stale_header] ++ (Repo_markdown <$> stale)
        ++ [archive_header] ++ (Repo_markdown <$> archive)
        ++ [gists_head] ++ (Gist_markdown <$> gists R)
    ∧ List.filter (λ s, startswith s (lf +:+ "### ")) (markdown_table R)
      = [current_header; stale_header; archive_header; gists_head].
Proof.
  eexists. split; [vm_compute; reflexivity|].
  eapply (markdown_table_layout Sample.github false Sample.now).
  vm_compute. reflexivity.
Defined.

(** ** Rewriting README.md *)

Section Scan.

Lemma string_app_assoc (x u v : string) :
  x +:+ (u +:+ v) = (x +:+ u) +:+ v.
Proof.
  induction x as [|c x IH]; [done|].
  change (String c (x +:+ (u +:+ v)) = String c ((x +:+ u) +:+ v)).
  by rewrite IH.
Qed.

Lemma file_text_app (a b : list string) :
  file_text (a ++ b) = file_text a +:+ file_text b.
Proof.
  induction a as [|x q IH]; simpl; [done|].
  by rewrite IH, string_app_assoc.
Qed.

(** The first loop stops at the first marker among the lines it
    tests, which start with the second line of the file. *)
Lemma scan_head_step fuel file head line :
  scan_head (S fuel) file head line
  = if String.eqb line PROJECTS_HEADER then Some (head, file)
    else scan_head fuel (readline file).2 (head ++ [line]) (readline file).1.
Proof.
  cbn [scan_head]. destruct (String.eqb line PROJECTS_HEADER); [done|].
  by destruct file.
Qed.

Lemma skip_section_step fuel file line :
  skip_section (S fuel) file line
  = if is_heading line then Some (line, file)
    else skip_section fuel (readline file).2 (readline file).1.
Proof.
  cbn [skip_section]. unfold is_heading.
  destruct (startswith line "## "); [done|]. by destruct file.
Qed.

Lemma marker_is_marker : String.eqb PROJECTS_HEADER PROJECTS_HEADER = true.
Proof. reflexivity. Qed.

Lemma not_marker line :
  line ≠ PROJECTS_HEADER → String.eqb line PROJECTS_HEADER = false.
Proof. by destruct (String.eqb_spec line PROJECTS_HEADER). Qed.

Lemma eof_not_marker : "" ≠ PROJECTS_HEADER.
Proof. discriminate. Qed.

Lemma eof_not_heading : is_heading "" = false.
Proof. reflexivity. Qed.

(** The first loop stops at the first marker among the lines it
    tests, which start with the second line of the file. *)
Lemma scan_head_found (pre : list string) :
  ∀ fuel head line file rest,
    line :: file = pre ++ PROJECTS_HEADER :: rest →
    Forall (λ l, l ≠ PROJECTS_HEADER) pre →
    (length pre < fuel)%nat →
    scan_head fuel file head line = Some (head ++ pre, rest).
Proof.
  induction pre as [|p pre IH]; intros fuel head line file rest Heq Hpre Hfuel;
    (destruct fuel as [|fuel]; [simpl in Hfuel; lia|]);
    rewrite scan_head_step.
  - injection Heq as -> ->. rewrite marker_is_marker.
    by rewrite app_nil_r.
  - injection Heq as -> ->. apply Forall_cons in Hpre as [Hp Hpre].
    rewrite (not_marker _ Hp).
    destruct (pre ++ PROJECTS_HEADER :: rest) as [|l r] eqn:Hfile;
      [by destruct pre|].
    cbn [readline fst snd].
    rewrite (IH fuel (head ++ [p]) l r rest); [|done|done|].
    + by rewrite <- app_assoc.
    + simpl in Hfuel. lia.
Qed.

Lemma skip_section_found (body : list string) :
  ∀ fuel line file h rest,
    line :: file = body ++ h :: rest →
    Forall (λ l, is_heading l = false) body →
    is_heading h = true →
    (length body < fuel)%nat →
    skip_section fuel file line = Some (h, rest).
Proof.
  induction body as [|p body IH]; intros fuel line file h rest Heq Hb Hh Hfuel;
    (destruct fuel as [|fuel]; [simpl in Hfuel; lia|]);
    rewrite skip_section_step.
  - injection Heq as -> ->. by rewrite Hh.
  - injection Heq as -> ->. apply Forall_cons in Hb as [Hp Hb].
    rewrite Hp.
    destruct (body ++ h :: rest) as [|l r] eqn:Hfile; [by destruct body|].
    cbn [readline fst snd]. apply IH; [done..|]. simpl in Hfuel. lia.
Qed.

(** Past the end of the file [readline] keeps returning the empty
    string, which is neither the marker nor a heading: a loop whose
    exit line is not among the lines left never stops. *)
Lemma scan_head_never (fuel : nat) :
  ∀ file head line,
    Forall (λ l, l ≠ PROJECTS_HEADER) (line :: file) →
    scan_head fuel file head line = None.
Proof.
  induction fuel as [|fuel IH]; intros file head line Hall; [done|].
  apply Forall_cons in Hall as [Hline Hfile].
  rewrite scan_head_step, (not_marker _ Hline).
  destruct file as [|l r]; cbn [readline fst snd].
  - apply IH. repeat constructor. apply eof_not_marker.
  - by apply IH.
Qed.

Lemma skip_section_never (fuel : nat) :
  ∀ file line,
    Forall (λ l, is_heading l = false) (line :: file) →
    skip_section fuel file line = None.
Proof.
  induction fuel as [|fuel IH]; intros file line Hall; [done|].
  apply Forall_cons in Hall as [Hline Hfile].
  rewrite skip_section_step, Hline.
  destruct file as [|l r]; cbn [readline fst snd].
  - apply IH. repeat constructor.
  - by apply IH.
Qed.

Variable table : list string.

Lemma rewrite_readme_unfold fuel readme :
  rewrite_readme fuel readme table
  = (hf ← scan_head fuel (readline (readline readme).2).2
            [(readline readme).1] (readline (readline readme).2).1;
     lf ← skip_section fuel (readline hf.2).2 (readline hf.2).1;
     Some (hf.1 ++ table ++ [nl +:+ lf.1] ++ lf.2)).
Proof.
  unfold rewrite_readme.
  destruct (readline readme) as [line0 f1]. cbn [fst snd].
  destruct (readline f1) as [line1 f2]. cbn [fst snd].
  destruct (scan_head fuel f2 [line0] line1) as [[head f3]|]; [|done].
  rewrite !mbind_Some. cbn [fst snd].
  destruct (readline f3) as [line2 f4]. cbn [fst snd].
  by destruct (skip_section fuel f4 line2) as [[line3 f5]|].
Qed.

(** When the first marker after the first line is followed by a
    heading, the rewrite finishes and keeps the lines before the
    marker and the lines from the heading on. *)
Lemma rewrite_readme_frame line0 pre body h rest fuel :
  Forall (λ l, l ≠ PROJECTS_HEADER) pre →
  Forall (λ l, is_heading l = false) body →
  is_heading h = true →
  (length pre < fuel)%nat →
  (length body < fuel)%nat →
  rewrite_readme fuel (line0 :: pre ++ PROJECTS_HEADER :: body ++ h :: rest)
    table
  = Some ((line0 :: pre) ++ table ++ (nl +:+ h) :: rest).
Proof.
  intros Hpre Hbody Hh Hf1 Hf2. rewrite rewrite_readme_unfold.
  cbn [readline fst snd].
  destruct (pre ++ PROJECTS_HEADER :: body ++ h :: rest) as [|l r] eqn:Hfile;
    [by destruct pre|].
  cbn [readline fst snd].
  rewrite (scan_head_found pre fuel [line0] l r (body ++ h :: rest));
    [|done..].
  rewrite mbind_Some. cbn [fst snd].
  destruct (body ++ h :: rest) as [|l2 r2] eqn:Hfile2; [by destruct body|].
  cbn [readline fst snd].
  rewrite (skip_section_found body fuel l2 r2 h rest); [|done..].
  reflexivity.
Qed.

Lemma rewrite_readme_frame_content line0 pre body h rest fuel :
  Forall (λ l, l ≠ PROJECTS_HEADER) pre →
  Forall (λ l, is_heading l = false) body →
  is_heading h = true →
  (length pre < fuel)%nat →
  (length body < fuel)%nat →
  ∃ out,
    rewrite_readme fuel
      (line0 :: pre ++ PROJECTS_HEADER :: body ++ h :: rest) table = Some out
    ∧ file_text out
      = file_text (line0 :: pre)
        +:+ (file_text table +:+ nl)
        +:+ file_text (h :: rest).
Proof.
  intros. eexists. split; [by apply rewrite_readme_frame|].
  rewrite !file_text_app.
  change (file_text ((nl +:+ h) :: rest))
    with ((nl +:+ h) +:+ file_text rest).
  change (file_text (h :: rest)) with (h +:+ file_text rest).
  by rewrite <- !string_app_assoc.
Qed.

(** When no line after the first is the marker, the first loop
    never stops, whatever the first line is. *)
Lemma rewrite_readme_no_marker readme fuel :
  Forall (λ l, l ≠ PROJECTS_HEADER) (tail readme) →
  rewrite_readme fuel readme table = None.
Proof.
  intros Hall. rewrite rewrite_readme_unfold.
  rewrite scan_head_never; [done|].
  destruct readme as [|line0 [|l r]]; cbn [readline fst snd tail] in *;
    [repeat constructor; apply eof_not_marker ..|done].
Qed.

Lemma scan_head_short (pre : list string) :
  ∀ fuel head line file rest,
    line :: file = pre ++ rest →
    Forall (λ l, l ≠ PROJECTS_HEADER) pre →
    (fuel ≤ length pre)%nat →
    scan_head fuel file head line = None.
Proof.
  induction pre as [|p pre IH]; intros fuel head line file rest Heq Hpre Hfuel;
    (destruct fuel as [|fuel]; [done|]); [simpl in Hfuel; lia|].
  rewrite scan_head_step.
  injection Heq as -> ->. apply Forall_cons in Hpre as [Hp Hpre].
  rewrite (not_marker _ Hp). simpl in Hfuel.
  destruct pre as [|p2 pre2]; simpl in Hfuel.
  - assert (fuel = O) as -> by lia. done.
  - cbn [app readline fst snd]. eapply IH; [done..|simpl; lia].
Qed.

(** When no line after the marker is a heading, the second loop
    never stops. *)
Lemma rewrite_readme_no_heading line0 pre body fuel :
  Forall (λ l, l ≠ PROJECTS_HEADER) pre →
  Forall (λ l, is_heading l = false) body →
  rewrite_readme fuel (line0 :: pre ++ PROJECTS_HEADER :: body) table = None.
Proof.
  intros Hpre Hbody. rewrite rewrite_readme_unfold.
  cbn [readline fst snd].
  destruct (pre ++ PROJECTS_HEADER :: body) as [|l r] eqn:Hfile;
    [by destruct pre|].
  cbn [readline fst snd].
  destruct (le_lt_dec fuel (length pre)) as [Hle|Hlt].
  - by rewrite (scan_head_short pre fuel [line0] l r
                  (PROJECTS_HEADER :: body)).
  - rewrite (scan_head_found pre fuel [line0] l r body); [|done..].
    rewrite mbind_Some. cbn [fst snd].
    rewrite skip_section_never; [done|].
    destruct body as [|l2 r2]; cbn [readline fst snd]; [|done].
    repeat constructor.
Qed.

End Scan.

Example rewrite_typical table :
  rewrite_readme 4 SampleReadme.typical table
  = Some (["# meta-repo" +:+ nl; "Some text." +:+ nl] ++ table
          ++ [nl +:+ "## License" +:+ nl; "MIT" +:+ nl]).
Proof. reflexivity. Qed.

(** C6.  On a README whose first line is the marker, followed by a
    section body and a heading, no rewrite is ever produced; when a
    second marker follows, the rewrite keeps the body of the first
    section, replaces the second one, and the written file does not
    end with the lines from the heading after the first marker on. *)
Theorem rewrite_skips_marker_on_first_line :
  (∀ fuel table, rewrite_readme fuel SampleReadme.marker_first table = None)
  ∧ rewrite_readme 7 SampleReadme.two_markers SampleReadme.empty_table
    = Some (SampleReadme.marker_first ++ SampleReadme.empty_table
            ++ [nl +:+ "## End" +:+ nl])
  ∧ endswith
      (file_text (SampleReadme.marker_first ++ SampleReadme.empty_table
                     ++ [nl +:+ "## End" +:+ nl]))
      (file_text (drop 2 SampleReadme.two_markers)) = false.
Proof.
  split; [|split; vm_compute; reflexivity].
  intros fuel table. apply rewrite_readme_no_marker.
  repeat constructor; discriminate.
Qed.

(** C7.  The README made of the marker line followed by a heading
    line holds the marker and a later heading, and the scan does not
    finish on it whatever number of iterations it is given. *)
Theorem scan_unbounded_marker_on_first_line :
  (∃ h rest,
     [PROJECTS_HEADER; "## About" +:+ nl] = PROJECTS_HEADER :: h :: rest
     ∧ is_heading h = true)
  ∧ ∀ fuel table,
      rewrite_readme fuel [PROJECTS_HEADER; "## About" +:+ nl] table = None.
Proof.
  split.
  - eexists _, _. split; reflexivity.
  - intros fuel table. apply rewrite_readme_no_marker.
    repeat constructor; discriminate.
Qed.

(** * Further properties *)

(** ** The notebook byte counter *)

Section ByteCount.

Lemma utf8_char_len_pos c k : utf8_char_len c = Some k → 1 ≤ k ≤ 4.
Proof.
  unfold utf8_char_len.
  repeat (destruct (_ <? _)%N || destruct (_ && _)); intros [= <-]; lia.
Qed.

Lemma utf8_len_nonneg line n : utf8_len line = Some n → 0 ≤ n.
Proof.
  revert n. induction line as [|c q IH]; simpl; intros n.
  - intros [= <-]. lia.
  - intros H. apply bind_Some in H as (k & Hk & H).
    apply bind_Some in H as (m & Hm & [= <-]).
    apply utf8_char_len_pos in Hk. specialize (IH _ Hm). lia.
Qed.

Lemma utf8_len_app (a b : text) :
  utf8_len (a ++ b) = (x ← utf8_len a; y ← utf8_len b; Some (x + y)).
Proof.
  induction a as [|c q IH]; simpl.
  - destruct (utf8_len b); simpl; [f_equal; lia|done].
  - destruct (utf8_char_len c) as [k|]; simpl; [|done].
    rewrite IH. destruct (utf8_len q) as [x|]; simpl; [|done].
    destruct (utf8_len b) as [y|]; simpl; [f_equal; lia|done].
Qed.

Lemma count_lines_concat (lines : list text) :
  ∀ b, count_lines lines b = (λ n, b + n) <$> utf8_len (concat lines).
Proof.
  induction lines as [|l q IH]; intros b; simpl.
  - f_equal. lia.
  - rewrite utf8_len_app. destruct (utf8_len l) as [x|]; simpl; [|done].
    rewrite IH. destruct (utf8_len (concat q)) as [y|]; simpl; [|done].
    f_equal. lia.
Qed.

Lemma count_cells_acc (cells : list Cell) :
  ∀ b, count_cells cells b = (λ n, b + n) <$> count_cells cells 0.
Proof.
  induction cells as [|c q IH]; intros b; simpl.
  - f_equal. lia.
  - destruct (String.eqb (cell_type c) "code"); [|apply IH].
    rewrite !count_lines_concat.
    destruct (utf8_len (concat (source c))) as [x|]; simpl; [|done].
    rewrite (IH (b + x)), (IH (0 + x)).
    destruct (count_cells q 0) as [y|]; simpl; [|done]. f_equal. lia.
Qed.

Lemma count_cells_nonneg (cells : list Cell) :
  ∀ b n, 0 ≤ b → count_cells cells b = Some n → b ≤ n.
Proof.
  induction cells as [|c q IH]; intros b n Hb; simpl.
  - intros [= <-]. lia.
  - destruct (String.eqb (cell_type c) "code"); [|by apply IH].
    rewrite count_lines_concat.
    destruct (utf8_len (concat (source c))) as [x|] eqn:Hx; simpl; [|done].
    apply utf8_len_nonneg in Hx. intros H. apply IH in H; lia.
Qed.

Lemma visit_acc e b : visit e b = (λ n, b + n) <$> visit e 0.
Proof.
  unfold visit. destruct (String.eqb _ _); [simpl; f_equal; lia|].
  destruct (endswith _ _); [|simpl; f_equal; lia].
  destruct (cf_notebook e) as [cells|]; simpl; [|done]. apply count_cells_acc.
Qed.

Lemma visit_nonneg e n : visit e 0 = Some n → 0 ≤ n.
Proof.
  unfold visit. destruct (String.eqb _ _); [intros [= <-]; lia|].
  destruct (endswith _ _); [|intros [= <-]; lia].
  destruct (cf_notebook e) as [cells|]; simpl; [|done].
  by apply count_cells_nonneg.
Qed.

Lemma visit_None e : visit e 0 = None ↔ bad_notebook e.
Proof.
  unfold visit, bad_notebook.
  destruct (String.eqb _ _); [intuition congruence|].
  destruct (endswith _ _); intuition congruence.
Qed.

Lemma visit_all_acc (l : list ContentFile) :
  ∀ b, visit_all l b = (λ n, b + n) <$> visit_all l 0.
Proof.
  induction l as [|e q IH]; intros b; simpl.
  - f_equal. lia.
  - rewrite (visit_acc e b). destruct (visit e 0) as [x|]; simpl; [|done].
    rewrite (IH (b + x)), (IH x).
    destruct (visit_all q 0) as [y|]; simpl; [|done]. f_equal. lia.
Qed.

Lemma visit_all_None (l : list ContentFile) :
  ∀ b, visit_all l b = None ↔ Exists bad_notebook l.
Proof.
  induction l as [|e q IH]; intros b; simpl.
  - split; [done|]. by intros ?%Exists_nil.
  - rewrite Exists_cons, <- visit_None, (visit_acc e b).
    destruct (visit e 0) as [x|]; simpl.
    + rewrite IH. intuition congruence.
    + intuition congruence.
Qed.

Lemma visit_all_nonneg (l : list ContentFile) n :
  visit_all l 0 = Some n → 0 ≤ n.
Proof.
  revert n. induction l as [|e q IH]; intros n; simpl.
  - intros [= <-]. lia.
  - destruct (visit e 0) as [x|] eqn:Hx; simpl; [|done].
    apply visit_nonneg in Hx. rewrite visit_all_acc.
    destruct (visit_all q 0) as [y|]; simpl; [|done].
    specialize (IH _ eq_refl). intros [= <-]. lia.
Qed.

Lemma spec_jupyter_bytes_app (l1 l2 : list ContentFile) :
  spec_jupyter_bytes (l1 ++ l2)
  = (a ← spec_jupyter_bytes l1; b ← spec_jupyter_bytes l2; Some (a + b)).
Proof.
  induction l1 as [|x q IH]; simpl.
  - destruct (spec_jupyter_bytes l2); simpl; [f_equal; lia|done].
  - destruct (spec_entry_bytes x) as [a|]; simpl; [|done].
    rewrite IH. destruct (spec_jupyter_bytes q) as [b|]; simpl; [|done].
    destruct (spec_jupyter_bytes l2) as [c|]; simpl; [f_equal; lia|done].
Qed.

(** The bytes below an entry are its own and those of what the loop
    would enqueue for it. *)
Lemma spec_entry_bytes_unfold e :
  spec_entry_bytes e
  = (a ← visit e 0; b ← spec_jupyter_bytes (expand e); Some (a + b)).
Proof.
  destruct e as [t n nb l]. unfold visit, expand. simpl.
  destruct (String.eqb t "dir").
  - simpl. induction l as [|x q IH]; simpl; [done|].
    destruct (spec_entry_bytes x) as [a|]; simpl; [|done].
    rewrite IH. by destruct (spec_jupyter_bytes q).
  - destruct (endswith n ".ipynb"); simpl; [|done].
    destruct nb as [cells|]; simpl; [|done].
    destruct (count_cells cells 0); simpl; [f_equal; lia|done].
Qed.

Lemma spec_entry_bytes_nonneg e :
  ∀ m, spec_entry_bytes e = Some m → 0 ≤ m.
Proof.
  remember (cf_size e) as k eqn:Hk. revert e Hk.
  induction k as [k IH] using lt_wf_ind; intros e Hk m.
  rewrite spec_entry_bytes_unfold.
  intros H. apply bind_Some in H as (a & Ha & H).
  apply bind_Some in H as (c & Hc & [= <-]).
  apply visit_nonneg in Ha.
  enough (0 ≤ c) by lia.
  assert (worklist_size (expand e) < k)%nat as Hlt.
  { subst k. rewrite (cf_size_eq e). unfold expand.
    destruct (String.eqb _ _); simpl; lia. }
  clear Ha. revert c Hc Hlt. generalize (expand e) as l.
  induction l as [|x q IHq]; simpl; intros c.
  - intros [= <-]. lia.
  - intros H Hlt. apply bind_Some in H as (u & Hu & H).
    apply bind_Some in H as (v & Hv & [= <-]).
    apply (IH (cf_size x)) in Hu; [|lia|done].
    apply IHq in Hv; lia.
Qed.

Lemma count_loop_deficit (contents : list ContentFile) :
  ∀ b t,
    contents ≠ [] →
    spec_jupyter_bytes contents = Some t →
    ∃ e n m,
      count_loop contents b = Some (b + n, [e])
      ∧ spec_entry_bytes e = Some m
      ∧ t = n + m ∧ 0 ≤ n.
Proof.
  remember (worklist_size contents) as k eqn:Hk. revert contents Hk.
  induction k as [k IH] using lt_wf_ind; intros contents Hk b t Hne Hspec.
  destruct contents as [|f [|e rest]]; [done| |].
  - exists f, 0. simpl in Hspec.
    destruct (spec_entry_bytes f) as [m|]; simpl in Hspec; [|done].
    injection Hspec as <-. exists m. simp count_loop.
    repeat split; [do 2 f_equal; lia|lia|lia].
  - change (f :: e :: rest) with ([f] ++ (e :: rest)) in Hspec.
    rewrite spec_jupyter_bytes_app in Hspec.
    apply bind_Some in Hspec as (tf & Hf & Hspec).
    apply bind_Some in Hspec as (tq & Hq & [= <-]).
    simpl in Hf. destruct (spec_entry_bytes f) as [tf'|] eqn:Hf'; [|done].
    simpl in Hf. injection Hf as <-.
    rewrite spec_entry_bytes_unfold in Hf'.
    apply bind_Some in Hf' as (a & Ha & Hf').
    apply bind_Some in Hf' as (c & Hc & [= <-]).
    assert (spec_jupyter_bytes ((e :: rest) ++ expand f) = Some (tq + c))
      as Hnext by (by rewrite spec_jupyter_bytes_app, Hq, Hc).
    destruct (IH (worklist_size ((e :: rest) ++ expand f)))
      with (contents := (e :: rest) ++ expand f) (b := b + a) (t := tq + c)
      as (x & n & m & Hrun & Hm & Hsum & Hn); [|done|done|done|].
    { subst k. apply (expand_decreases f (e :: rest)). }
    exists x, (a + n), m. rewrite count_loop_equation_3.
    rewrite (visit_acc f b), Ha.
    change ((λ n, b + n) <$> Some a) with (Some (b + a)). cbv beta iota.
    rewrite Hrun. apply visit_nonneg in Ha.
    repeat split; [do 2 f_equal; lia|done|lia|lia].
Qed.

End ByteCount.

(** X1.  When every notebook of the tree parses, the count is the sum
    over the whole tree less the bytes found at or below the one entry
    the loop leaves in the worklist; so the count is never negative
    and never above the sum over the tree. *)
Theorem count_jupyter_bytes_deficit (root : list ContentFile) (t : Z)
    (Hne : root ≠ [])
    (Hspec : spec_jupyter_bytes root = Some t) :
  ∃ e n m,
    unvisited root = [e]
    ∧ count_jupyter_bytes root = Some n
    ∧ spec_entry_bytes e = Some m
    ∧ t = n + m
    ∧ 0 ≤ n ≤ t.
Proof.
  destruct (count_loop_deficit root 0 t Hne Hspec)
    as (e & n & m & Hrun & Hm & Hsum & Hn).
  exists e, n, m.
  pose proof (spec_entry_bytes_nonneg e m Hm) as Hm0.
  repeat split; [|by unfold count_jupyter_bytes; rewrite Hrun|done..|lia].
  rewrite count_loop_visited in Hrun.
  apply bind_Some in Hrun as (b' & _ & [= _ Hu]). done.
Qed.

Lemma count_jupyter_bytes_deficit_witness :
  ∃ e n m,
    unvisited [Sample.readme_md; Sample.notebooks_dir] = [e]
    ∧ count_jupyter_bytes [Sample.readme_md; Sample.notebooks_dir] = Some n
    ∧ spec_entry_bytes e = Some m
    ∧ 37 = n + m
    ∧ 0 ≤ n ≤ 37.
Proof.
  apply (count_jupyter_bytes_deficit
           [Sample.readme_md; Sample.notebooks_dir] 37).
  - discriminate.
  - reflexivity.
Defined.

(** X2.  The count raises exactly when one of the entries the loop
    examines is a file named as a notebook that does not parse or
    cannot be encoded; such a file left in the worklist, or below a
    directory left there, goes unnoticed. *)
Theorem count_jupyter_bytes_raises (root : list ContentFile) :
  count_jupyter_bytes root = None ↔ Exists bad_notebook (visited root).
Proof.
  unfold count_jupyter_bytes. rewrite count_loop_visited.
  rewrite <- (visit_all_None (visited root) 0).
  destruct (visit_all (visited root) 0); simpl; intuition congruence.
Qed.

(** X3.  The bytes counted for the lines of a cell depend only on
    their concatenation: a source given as one string and the same
    source split in lines count the same, and an added count is
    carried through unchanged. *)
Theorem count_lines_only_concat (lines lines' : list text) (b : Z)
    (Hcat : concat lines = concat lines') :
  count_lines lines b = count_lines lines' b
  ∧ count_lines lines b = (λ n, b + n) <$> utf8_len (concat lines).
Proof. rewrite !count_lines_concat, Hcat. done. Qed.

Lemma count_lines_only_concat_witness :
  count_lines [text_of_ascii "ab"; text_of_ascii "c"] 5
  = count_lines [text_of_ascii "a"; text_of_ascii "b"; text_of_ascii "c"] 5
  ∧ count_lines [text_of_ascii "ab"; text_of_ascii "c"] 5
    = (λ n, 5 + n)
        <$> utf8_len (concat [text_of_ascii "ab"; text_of_ascii "c"]).
Proof.
  apply (count_lines_only_concat
           [text_of_ascii "ab"; text_of_ascii "c"]
           [text_of_ascii "a"; text_of_ascii "b"; text_of_ascii "c"] 5).
  reflexivity.
Defined.

Example bad_notebook_left_over :
  count_jupyter_bytes
    [Sample.notebook37;
     mkContentFile "file" "broken.ipynb" None []] = Some 37
  ∧ count_jupyter_bytes
      [mkContentFile "file" "broken.ipynb" None []; Sample.notebook37] = None.
Proof. split; reflexivity. Qed.

(** ** The statistics of a pass *)

Lemma Repo_init_is_Some (repo : Repository) (now : datetime) :
  ∃ r, Repo_init repo now = Some r
       ∧ str_in (status r) status_options = true.
Proof.
  unfold Repo_init. rewrite Repo_status_in_options.
  eexists. split; [reflexivity|]. simpl. apply Repo_status_in_options.
Qed.


Section PassCounts.

Variables (include_private : bool) (user : NamedUser) (now : datetime).

Lemma str_in_cons (x k : string) (l : list string) :
  str_in x (k :: l) = String.eqb x k || str_in x l.
Proof. reflexivity. Qed.

Lemma add_all_bytes_Some_inv gh_repo items s s' :
  add_all_bytes gh_repo items s = Some s' →
  str_in "Jupyter Notebook" (keys items) = true →
  is_Some (count_jupyter_bytes (get_contents gh_repo)).
Proof.
  revert s. induction items as [|[k v] q IH]; intros s; [by intros _ ?|].
  cbn [add_all_bytes].
  intros H Hin. apply bind_Some in H as (n & Hn & H).
  destruct (String.eqb_spec k "Jupyter Notebook") as [->|Hne]; [by exists n|].
  change (keys ((k, v) :: q)) with (k :: keys q) in Hin.
  rewrite str_in_cons in Hin.
  destruct (String.eqb_spec "Jupyter Notebook" k) as [<-|_]; [done|].
  by eapply IH.
Qed.

Lemma record_languages_is_Some gh_repo ld :
  is_Some (record_languages gh_repo ld)
  ↔ (has_language "Jupyter Notebook" gh_repo = true →
     is_Some (count_jupyter_bytes (get_contents gh_repo))).
Proof.
  split; [|apply record_languages_total].
  intros [ld' H] Hin. unfold record_languages, has_language in *.
  destruct (get_languages gh_repo) as [|kv q]; [done|].
  apply bind_Some in H as (ab & Hab & _).
  by eapply add_all_bytes_Some_inv.
Qed.

Lemma dict_append_is_Some {V} (d : dict (list V)) k (x : V) :
  str_in k (keys d) = true → is_Some (dict_append d k x).
Proof.
  induction d as [|[k' l] q IH]; [done|]. cbn [dict_append].
  destruct (String.eqb_spec k' k) as [->|Hne]; [done|].
  change (keys ((k', l) :: q)) with (k' :: keys q).
  rewrite str_in_cons.
  destruct (String.eqb_spec k k') as [->|_]; [done|]. simpl.
  intros Hin. destruct (IH Hin) as [q' ->]. done.
Qed.

Lemma process_repo_is_Some st gh_repo :
  keys (st_repos st) = status_options →
  is_Some (process_repo include_private user now st gh_repo)
  ↔ notebooks_parse user gh_repo.
Proof.
  intros Hkeys. unfold process_repo, notebooks_parse.
  fold (included user gh_repo).
  destruct (included user gh_repo); [|intuition done].
  rewrite <- (record_languages_is_Some gh_repo (language_data st)).
  destruct (record_languages gh_repo (language_data st)) as [ld|];
    [|split; [by intros [? ?]|intros H; by destruct (H eq_refl) as [? ?]]].
  rewrite mbind_Some. split; [done|]. intros _.
  destruct (include_private || negb _); [|done].
  destruct (Repo_init_is_Some gh_repo now) as (r & -> & Hr).
  rewrite mbind_Some.
  destruct (dict_append_is_Some (st_repos st) (status r) r) as [d ->]; [|done].
  by rewrite Hkeys, Hr.
Qed.

Lemma process_repos_is_Some (l : list Repository) :
  ∀ st,
    keys (st_repos st) = status_options →
    is_Some (process_repos include_private user now st l)
    ↔ Forall (notebooks_parse user) l.
Proof.
  induction l as [|r q IH]; intros st Hkeys; simpl.
  - split; [constructor|done].
  - rewrite Forall_cons, <- (process_repo_is_Some st r Hkeys).
    destruct (process_repo include_private user now st r) as [st1|] eqn:Hstep.
    + rewrite mbind_Some, IH; [intuition done|].
      by rewrite (process_repo_keys _ _ _ _ _ _ Hstep).
    + split; [by intros [? ?]|by intros [[? ?] _]].
Qed.

(** What one iteration adds to the four counters. *)
Lemma process_repo_counts st gh_repo st' lang :
  process_repo include_private user now st gh_repo = Some st' →
  count (counter (all_bytes (language_data st'))) lang
  = count (counter (all_bytes (language_data st))) lang
    + delta_all_bytes user lang gh_repo
  ∧ count (counter (all_repos (language_data st'))) lang
    = count (counter (all_repos (language_data st))) lang
      + delta_all_repos user lang gh_repo
  ∧ count (counter (top_bytes (language_data st'))) lang
    = count (counter (top_bytes (language_data st))) lang
      + delta_top_bytes user lang gh_repo
  ∧ count (counter (top_repos (language_data st'))) lang
    = count (counter (top_repos (language_data st))) lang
      + delta_top_repos user lang gh_repo.
Proof.
  intros Hstep. apply process_repo_language_data in Hstep.
  unfold delta_all_bytes, delta_all_repos, delta_top_bytes, delta_top_repos.
  destruct (included user gh_repo); [|subst; repeat split; simpl; lia].
  destruct (record_languages_counts _ _ _ Hstep) as (Hab & Har & Htop).
  split; [apply Hab|]. split; [apply Har|].
  unfold dominant. simpl.
  destruct Htop as [[Hl ->]|(top & tv & Hmax & Htv & Htb & Htr)].
  - rewrite Hl. simpl. split; lia.
  - rewrite Hmax, Htb, Htr.
    destruct (decide (top = lang)) as [->|Hne].
    + rewrite bool_decide_eq_true_2 by done. rewrite Htv. done.
    + rewrite bool_decide_eq_false_2 by congruence. done.
Qed.

Lemma process_repos_counts (l : list Repository) lang :
  ∀ st st',
    process_repos include_private user now st l = Some st' →
    count (counter (all_bytes (language_data st'))) lang
    = count (counter (all_bytes (language_data st))) lang
      + sum_over (delta_all_bytes user lang) l
    ∧ count (counter (all_repos (language_data st'))) lang
      = count (counter (all_repos (language_data st))) lang
        + sum_over (delta_all_repos user lang) l
    ∧ count (counter (top_bytes (language_data st'))) lang
      = count (counter (top_bytes (language_data st))) lang
        + sum_over (delta_top_bytes user lang) l
    ∧ count (counter (top_repos (language_data st'))) lang
      = count (counter (top_repos (language_data st))) lang
        + sum_over (delta_top_repos user lang) l.
Proof.
  induction l as [|r q IH]; intros st st'; simpl.
  - intros [= <-]. repeat split; lia.
  - intros H. apply bind_Some in H as (st1 & Hstep & Hrest).
    destruct (process_repo_counts _ _ _ lang Hstep) as (A1 & A2 & A3 & A4).
    destruct (IH _ _ Hrest) as (B1 & B2 & B3 & B4).
    repeat split; lia.
Qed.

End PassCounts.

Lemma sum_over_perm (f : Repository → Z) (l l' : list Repository) :
  Permutation l l' → sum_over f l = sum_over f l'.
Proof. induction 1; simpl; lia. Qed.

Lemma sum_over_le (f g : Repository → Z) (l : list Repository) :
  Forall (λ r, f r ≤ g r) l → sum_over f l ≤ sum_over g l.
Proof. induction 1; simpl; lia. Qed.

Section PassFacts.

Lemma process_repos_filter ip user now (l : list Repository) :
  ∀ st,
    process_repos ip user now st l
    = process_repos ip user now st (List.filter (included user) l).
Proof.
  induction l as [|r q IH]; intros st; simpl; [done|].
  destruct (included user r) eqn:Hinc; simpl.
  - destruct (process_repo ip user now st r); simpl; [apply IH|done].
  - unfold process_repo. fold (included user r). rewrite Hinc.
    rewrite mbind_Some. apply IH.
Qed.

Lemma filter_length_le {A} (f : A → bool) (l : list A) :
  (length (List.filter f l) ≤ length l)%nat.
Proof. induction l as [|x q IH]; simpl; [lia|]. destruct (f x); simpl; lia. Qed.

Lemma process_repos_language_data_eq ip ip' user now now'
    (l : list Repository) :
  ∀ s1 s2 s1' s2',
    language_data s1 = language_data s2 →
    process_repos ip user now s1 l = Some s1' →
    process_repos ip' user now' s2 l = Some s2' →
    language_data s1' = language_data s2'.
Proof.
  induction l as [|r q IH]; intros s1 s2 s1' s2' Heq; simpl.
  - by intros [= <-] [= <-].
  - intros H1 H2.
    apply bind_Some in H1 as (t1 & Hstep1 & Hrest1).
    apply bind_Some in H2 as (t2 & Hstep2 & Hrest2).
    apply (IH t1 t2); [|done..].
    apply process_repo_language_data in Hstep1, Hstep2.
    destruct (included user r); [|by subst].
    rewrite Heq in Hstep1. congruence.
Qed.

Lemma max_loop_elem keyf (l : list string) :
  ∀ maxitem maxval top,
    max_loop keyf l maxitem maxval = Some top → top = maxitem ∨ top ∈ l.
Proof.
  induction l as [|item q IH]; intros maxitem maxval top; simpl.
  - intros [= <-]. by left.
  - intros H. apply bind_Some in H as (val & _ & H).
    destruct (maxval <? val); apply IH in H as [->|Hin];
      rewrite elem_of_cons; auto.
Qed.

Lemma py_max_elem keyf (l : list string) top :
  py_max keyf l = Some top → top ∈ l.
Proof.
  destruct l as [|item q]; simpl; [done|].
  intros H. apply bind_Some in H as (val & _ & H).
  apply max_loop_elem in H as [->|Hin]; rewrite elem_of_cons; auto.
Qed.

Lemma dict_get_is_Some {V} (d : dict V) k :
  k ∈ keys d → is_Some (dict_get d k).
Proof.
  intros Hin. pose proof (dict_get_keys d) as Hall.
  rewrite Forall_forall in Hall. by apply Hall.
Qed.

Lemma delta_top_le_all user lang (r : Repository) :
  wf_languages r →
  delta_top_bytes user lang r ≤ delta_all_bytes user lang r
  ∧ delta_top_repos user lang r ≤ delta_all_repos user lang r.
Proof.
  intros [Hnd Hpos].
  unfold delta_top_bytes, delta_all_bytes, delta_top_repos, delta_all_repos.
  destruct (included user r); simpl; [|lia].
  pose proof (bytes_for_nonneg lang _ Hpos).
  pose proof (occurrences_nonneg lang (keys (get_languages r))).
  destruct (bool_decide (dominant r = Some lang)) eqn:Hdom; [|lia].
  apply bool_decide_eq_true in Hdom. apply py_max_elem in Hdom.
  destruct (dict_get_is_Some _ _ Hdom) as [v Hv].
  rewrite Hv, (bytes_for_dict_get _ _ _ Hnd Hv).
  rewrite occurrences_NoDup, str_in_elem by done. simpl. lia.
Qed.

End PassFacts.

(** X4.  [Repos.__init__] completes exactly when the listing of
    repositories is not empty and, among its first five, every
    repository that the user owns or contributes to and that lists the
    language "Jupyter Notebook" has a notebook count that does not
    raise; it raises otherwise, on the empty listing by the slice
    [repos[:5]].  The privacy flag and the clock play no part in it. *)
Theorem Repos_init_raises_iff (github : Github) (include_private : bool)
    (now : datetime) :
  is_Some (Repos_init github include_private now)
  ↔ get_repos github ≠ []
    ∧ Forall (notebooks_parse (get_user github)) (take 5 (get_repos github)).
Proof.
  rewrite <- (process_repos_is_Some include_private (get_user github) now
                (take 5 (get_repos github)) loop_init eq_refl).
  unfold Repos_init, first_five.
  destruct (get_repos github) as [|r q] eqn:Hrepos.
  - split; [by intros [? ?]|by intros [? _]].
  - rewrite mbind_Some.
    destruct (process_repos _ _ _ _ _) as [st|].
    + rewrite mbind_Some. split; [by intros _|by intros _; eexists].
    + split; [by intros [? ?]|by intros [_ [? ?]]].
Qed.

(** X5.  After a pass that completes, the all_bytes counter of a
    language is the sum of the linguist byte counts of that language
    over the repositories of the user, whatever their notebooks hold;
    top_repos counts the repositories of the user whose dominant
    language it is, and top_bytes sums the byte counts it has in
    those. *)
Theorem pass_counter_values (include_private : bool) (user : NamedUser)
    (now : datetime) (l : list Repository) (st : LoopState) (lang : string)
    (Hrun : process_repos include_private user now loop_init l = Some st) :
  count (counter (all_bytes (language_data st))) lang
  = sum_over (delta_all_bytes user lang) l
  ∧ count (counter (top_bytes (language_data st))) lang
    = sum_over (delta_top_bytes user lang) l
  ∧ count (counter (top_repos (language_data st))) lang
    = sum_over (delta_top_repos user lang) l.
Proof.
  destruct (process_repos_counts _ _ _ l lang _ _ Hrun) as (A1 & _ & A3 & A4).
  rewrite A1, A3, A4. done.
Qed.

Lemma pass_counter_values_witness :
  count
    (counter
       (all_bytes
          (language_data
             (Sample.state_after (take 5 (get_repos Sample.github))))))
    "Jupyter Notebook"
  = sum_over (delta_all_bytes Sample.me "Jupyter Notebook")
      (take 5 (get_repos Sample.github))
  ∧ count
      (counter
         (top_bytes
            (language_data
               (Sample.state_after (take 5 (get_repos Sample.github))))))
      "Jupyter Notebook"
    = sum_over (delta_top_bytes Sample.me "Jupyter Notebook")
        (take 5 (get_repos Sample.github))
  ∧ count
      (counter
         (top_repos
            (language_data
               (Sample.state_after (take 5 (get_repos Sample.github))))))
      "Jupyter Notebook"
    = sum_over (delta_top_repos Sample.me "Jupyter Notebook")
        (take 5 (get_repos Sample.github)).
Proof.
  apply (pass_counter_values false Sample.me Sample.now).
  vm_compute. reflexivity.
Defined.

(** X6.  The language statistics do not depend on the privacy flag
    nor on the clock: a pass that completes with one setting completes
    with any other and ends with the same four counters. *)
Theorem statistics_ignore_privacy (ip ip' : bool) (user : NamedUser)
    (now now' : datetime) (l : list Repository) (st : LoopState)
    (Hrun : process_repos ip user now loop_init l = Some st) :
  ∃ st', process_repos ip' user now' loop_init l = Some st'
         ∧ language_data st' = language_data st.
Proof.
  assert (is_Some (process_repos ip' user now' loop_init l)) as [st' Hrun'].
  { apply process_repos_is_Some; [done|].
    apply (process_repos_is_Some ip user now l loop_init eq_refl). by exists st. }
  exists st'. split; [done|].
  by apply (process_repos_language_data_eq ip' ip user now' now l
              loop_init loop_init st' st).
Qed.

Lemma statistics_ignore_privacy_witness :
  ∃ st', process_repos true Sample.me (mkDatetime 2021 1 1 0 0 0 0) loop_init
           (take 5 (get_repos Sample.github)) = Some st'
         ∧ language_data st'
           = language_data
               (Sample.state_after (take 5 (get_repos Sample.github))).
Proof.
  apply (statistics_ignore_privacy false true Sample.me Sample.now).
  vm_compute. reflexivity.
Defined.

(** X7.  The counters do not depend on the order in which the
    repositories are processed. *)
Theorem statistics_ignore_order (include_private : bool) (user : NamedUser)
    (now : datetime) (l l' : list Repository) (st st' : LoopState)
    (lang : string)
    (Hperm : Permutation l l')
    (Hrun : process_repos include_private user now loop_init l = Some st)
    (Hrun' : process_repos include_private user now loop_init l' = Some st') :
  count (counter (all_bytes (language_data st))) lang
  = count (counter (all_bytes (language_data st'))) lang
  ∧ count (counter (all_repos (language_data st))) lang
    = count (counter (all_repos (language_data st'))) lang
  ∧ count (counter (top_bytes (language_data st))) lang
    = count (counter (top_bytes (language_data st'))) lang
  ∧ count (counter (top_repos (language_data st))) lang
    = count (counter (top_repos (language_data st'))) lang.
Proof.
  destruct (process_repos_counts _ _ _ l lang _ _ Hrun) as (A1 & A2 & A3 & A4).
  destruct (process_repos_counts _ _ _ l' lang _ _ Hrun')
    as (B1 & B2 & B3 & B4).
  rewrite A1, A2, A3, A4, B1, B2, B3, B4.
  by rewrite !(sum_over_perm _ l l' Hperm).
Qed.

Lemma statistics_ignore_order_witness :
  count
    (counter
       (all_bytes
          (language_data
             (Sample.state_after [Sample.jupyter_repo; Sample.private_repo]))))
    "Python"
  = count
      (counter
         (all_bytes
            (language_data
               (Sample.state_after
                  [Sample.private_repo; Sample.jupyter_repo]))))
      "Python"
  ∧ count
      (counter
         (all_repos
            (language_data
               (Sample.state_after
                  [Sample.jupyter_repo; Sample.private_repo]))))
      "Python"
    = count
        (counter
           (all_repos
              (language_data
                 (Sample.state_after
                    [Sample.private_repo; Sample.jupyter_repo]))))
        "Python"
  ∧ count
      (counter
         (top_bytes
            (language_data
               (Sample.state_after
                  [Sample.jupyter_repo; Sample.private_repo]))))
      "Python"
    = count
        (counter
           (top_bytes
              (language_data
                 (Sample.state_after
                    [Sample.private_repo; Sample.jupyter_repo]))))
        "Python"
  ∧ count
      (counter
         (top_repos
            (language_data
               (Sample.state_after
                  [Sample.jupyter_repo; Sample.private_repo]))))
      "Python"
    = count
        (counter
           (top_repos
              (language_data
                 (Sample.state_after
                    [Sample.private_repo; Sample.jupyter_repo]))))
        "Python".
Proof.
  apply (statistics_ignore_order false Sample.me Sample.now
           [Sample.jupyter_repo; Sample.private_repo]
           [Sample.private_repo; Sample.jupyter_repo]).
  - apply perm_swap.
  - vm_compute. reflexivity.
  - vm_compute. reflexivity.
Defined.

(** X8.  For language mappings with distinct keys and byte counts that
    are not negative, after a pass the top_bytes counter of a language
    never exceeds its all_bytes counter, nor its top_repos counter its
    all_repos counter. *)
Theorem top_counters_below_all (include_private : bool) (user : NamedUser)
    (now : datetime) (l : list Repository) (st : LoopState) (lang : string)
    (Hwf : Forall wf_languages l)
    (Hrun : process_repos include_private user now loop_init l = Some st) :
  count (counter (top_bytes (language_data st))) lang
  ≤ count (counter (all_bytes (language_data st))) lang
  ∧ count (counter (top_repos (language_data st))) lang
    ≤ count (counter (all_repos (language_data st))) lang.
Proof.
  destruct (process_repos_counts _ _ _ l lang _ _ Hrun) as (A1 & A2 & A3 & A4).
  rewrite A1, A2, A3, A4.
  change (count (counter (all_bytes (language_data loop_init))) lang) with 0.
  change (count (counter (all_repos (language_data loop_init))) lang) with 0.
  change (count (counter (top_bytes (language_data loop_init))) lang) with 0.
  change (count (counter (top_repos (language_data loop_init))) lang) with 0.
  split; apply Z.add_le_mono_l, sum_over_le;
    (eapply Forall_impl; [exact Hwf|]); intros r Hr;
    by destruct (delta_top_le_all user lang r Hr).
Qed.

Lemma top_counters_below_all_witness :
  count
    (counter
       (top_bytes
          (language_data
             (Sample.state_after (take 5 (get_repos Sample.github))))))
    "Python"
  ≤ count
      (counter
         (all_bytes
            (language_data
               (Sample.state_after (take 5 (get_repos Sample.github))))))
      "Python"
  ∧ count
      (counter
         (top_repos
            (language_data
               (Sample.state_after (take 5 (get_repos Sample.github))))))
      "Python"
    ≤ count
        (counter
           (all_repos
              (language_data
                 (Sample.state_after (take 5 (get_repos Sample.github))))))
        "Python".
Proof.
  apply (top_counters_below_all false Sample.me Sample.now
           (take 5 (get_repos Sample.github))).
  - exact sample_wf.
  - vm_compute. reflexivity.
Defined.

(** X9.  The result of [Repos.__init__] depends on the listing of
    repositories only through whether it is empty and through those
    of its first five that the user owns or contributes to, in their
    order: two accounts of the same user with the same gists, whose
    listings are both empty or both not and agree on these
    repositories, give the same result.  So repositories after the
    fifth, and repositories of others, have no effect unless dropping
    them empties the listing. *)
Theorem Repos_init_only_first_five_included (github github' : Github)
    (include_private : bool) (now : datetime)
    (Huser : get_user github' = get_user github)
    (Hgists : get_gists github' = get_gists github)
    (Hempty : get_repos github = [] ↔ get_repos github' = [])
    (Hrepos : List.filter (included (get_user github))
                (take 5 (get_repos github'))
              = List.filter (included (get_user github))
                  (take 5 (get_repos github))) :
  Repos_init github' include_private now
  = Repos_init github include_private now.
Proof.
  unfold Repos_init, first_five. rewrite Huser, Hgists.
  destruct (get_repos github) as [|r q] eqn:Hl,
           (get_repos github') as [|r' q'] eqn:Hl'.
  - done.
  - by destruct Hempty as [He _]; specialize (He eq_refl).
  - by destruct Hempty as [_ He]; specialize (He eq_refl).
  - rewrite !mbind_Some.
    rewrite (process_repos_filter _ _ _ (take 5 (r' :: q'))).
    rewrite (process_repos_filter _ _ _ (take 5 (r :: q))).
    by rewrite Hrepos.
Qed.

Lemma Repos_init_only_first_five_included_witness :
  get_repos SampleListing.long ≠ get_repos SampleListing.short
  ∧ Repos_init SampleListing.short false Sample.now
    = Repos_init SampleListing.long false Sample.now.
Proof.
  split; [discriminate|].
  apply (Repos_init_only_first_five_included
           SampleListing.long SampleListing.short false Sample.now).
  - reflexivity.
  - reflexivity.
  - split; discriminate.
  - vm_compute. reflexivity.
Defined.

(** ** Sorting in reverse on a key *)

Section SortDesc.

Context {A : Type} (keyf : A → string).

Lemma ltb_leb (a b : string) : String.ltb a b = true → String.leb a b = true.
Proof. unfold String.ltb, String.leb. by destruct (String.compare a b). Qed.

Lemma not_ltb_leb (a b : string) :
  String.ltb a b = false → String.leb b a = true.
Proof.
  unfold String.ltb, String.leb. rewrite (String.compare_antisym a b).
  by destruct (String.compare b a).
Qed.

Lemma ltb_irrefl (a : string) : String.ltb a a = false.
Proof.
  unfold String.ltb. pose proof (String.compare_antisym a a) as H.
  by destruct (String.compare a a).
Qed.

Lemma leb_trans (a b c : string) :
  String.leb a b = true → String.leb b c = true → String.leb a c = true.
Proof.
  intros H1%Is_true_true H2%Is_true_true. apply Is_true_true.
  change (String.le a c). by transitivity b.
Qed.

Lemma insert_desc_perm (x : A) (l : list A) :
  Permutation (insert_desc keyf x l) (x :: l).
Proof.
  induction l as [|y q IH]; simpl; [done|].
  destruct (String.ltb (keyf x) (keyf y)); [|done].
  rewrite IH. apply perm_swap.
Qed.

Lemma sort_desc_perm (l : list A) : Permutation (sort_desc keyf l) l.
Proof.
  induction l as [|x q IH]; simpl; [done|].
  change (foldr (insert_desc keyf) [] q) with (sort_desc keyf q).
  by rewrite insert_desc_perm, IH.
Qed.

Lemma insert_desc_sorted (x : A) (l : list A) :
  StronglySorted (newest_first keyf) l →
  StronglySorted (newest_first keyf) (insert_desc keyf x l).
Proof.
  induction 1 as [|y q Hq IH Hy]; simpl.
  - repeat constructor.
  - destruct (String.ltb (keyf x) (keyf y)) eqn:Hlt.
    + constructor; [done|].
      rewrite (Forall_forall (newest_first keyf y)).
      intros z Hz. rewrite insert_desc_perm in Hz.
      apply elem_of_cons in Hz as [->|Hz].
      * by apply ltb_leb.
      * rewrite Forall_forall in Hy. by apply Hy.
    + apply not_ltb_leb in Hlt. constructor; [by constructor|].
      constructor; [done|].
      eapply Forall_impl; [exact Hy|]. intros z Hz. unfold newest_first in *.
      by eapply leb_trans.
Qed.

Lemma sort_desc_sorted (l : list A) :
  StronglySorted (newest_first keyf) (sort_desc keyf l).
Proof.
  induction l as [|x q IH]; simpl; [constructor|].
  by apply insert_desc_sorted.
Qed.

Lemma insert_desc_stable (k : string) (x : A) (l : list A) :
  List.filter (λ a, String.eqb (keyf a) k) (insert_desc keyf x l)
  = List.filter (λ a, String.eqb (keyf a) k) (x :: l).
Proof.
  induction l as [|y q IH]; [done|]. cbn [insert_desc].
  destruct (String.ltb (keyf x) (keyf y)) eqn:Hlt; [|done].
  cbn [List.filter] in *. rewrite IH.
  destruct (String.eqb_spec (keyf x) k) as [Hx|Hx]; [|done].
  destruct (String.eqb_spec (keyf y) k) as [Hy|Hy]; [|done].
  rewrite Hx, Hy, ltb_irrefl in Hlt. done.
Qed.

Lemma sort_desc_stable (k : string) (l : list A) :
  List.filter (λ a, String.eqb (keyf a) k) (sort_desc keyf l)
  = List.filter (λ a, String.eqb (keyf a) k) l.
Proof.
  induction l as [|x q IH]; [done|].
  change (sort_desc keyf (x :: q))
    with (insert_desc keyf x (sort_desc keyf q)).
  rewrite insert_desc_stable. cbn [List.filter]. by rewrite IH.
Qed.

End SortDesc.

(** X10.  [l.sort(reverse=True, key=keyf)] as the script uses it: the
    result holds the same elements, every element stands before those
    of smaller or equal key, and elements of equal key keep their
    order. *)
Theorem sort_desc_sorts {A} (keyf : A → string) (l : list A) :
  Permutation (sort_desc keyf l) l
  ∧ StronglySorted (newest_first keyf) (sort_desc keyf l)
  ∧ ∀ k, List.filter (λ a, String.eqb (keyf a) k) (sort_desc keyf l)
         = List.filter (λ a, String.eqb (keyf a) k) l.
Proof.
  split; [apply sort_desc_perm|].
  split; [apply sort_desc_sorted|]. intros k. apply sort_desc_stable.
Qed.

(** ** The records of a result *)

Section Records.

Variables (include_private : bool) (user : NamedUser) (now : datetime).

Lemma dict_append_records (d : dict (list Repo)) k x d' :
  dict_append d k x = Some d' →
  Permutation (all_records d') (x :: all_records d).
Proof.
  unfold all_records. revert d'.
  induction d as [|[k' l] q IH]; intros d'; simpl; [done|].
  destruct (String.eqb k' k).
  - intros [= <-]. simpl. rewrite <- app_assoc.
    symmetry. apply Permutation_middle.
  - intros H. apply bind_Some in H as (q' & Hq' & [= <-]). simpl.
    rewrite (IH _ Hq'). symmetry. apply Permutation_middle.
Qed.

Lemma dict_append_groups (d : dict (list Repo)) x d' :
  groups_by_status d →
  dict_append d (status x) x = Some d' →
  groups_by_status d'.
Proof.
  unfold groups_by_status. revert d'.
  induction d as [|[k' l] q IH]; intros d' Hd; simpl; [done|].
  apply Forall_cons in Hd as [Hl Hq].
  destruct (String.eqb_spec k' (status x)) as [Heq|Hne].
  - intros [= <-]. constructor; [|done]. simpl in *.
    apply Forall_app. split; [done|]. by repeat constructor.
  - intros H. apply bind_Some in H as (q' & Hq' & [= <-]).
    constructor; [done|]. by apply IH.
Qed.

Lemma process_repo_records st gh_repo st' :
  process_repo include_private user now st gh_repo = Some st' →
  groups_by_status (st_repos st) →
  groups_by_status (st_repos st')
  ∧ Permutation (Some <$> all_records (st_repos st'))
      ((if included user gh_repo && visible include_private gh_repo
        then [Repo_init gh_repo now] else [])
       ++ (Some <$> all_records (st_repos st))).
Proof.
  unfold process_repo. fold (included user gh_repo).
  fold (visible include_private gh_repo).
  destruct (included user gh_repo); [|by intros [= <-]].
  intros H. apply bind_Some in H as (ld & _ & H).
  destruct (visible include_private gh_repo); [|by injection H as <-].
  apply bind_Some in H as (repo & Hrepo & H).
  apply bind_Some in H as (d & Hd & [= <-]). simpl. intros Hg.
  split; [by eapply dict_append_groups|].
  rewrite Hrepo, (dict_append_records _ _ _ _ Hd). done.
Qed.

Lemma process_repos_records (l : list Repository) :
  ∀ st st',
    process_repos include_private user now st l = Some st' →
    groups_by_status (st_repos st) →
    groups_by_status (st_repos st')
    ∧ Permutation (Some <$> all_records (st_repos st'))
        (((λ r, Repo_init r now)
            <$> List.filter
                  (λ r, included user r && visible include_private r) l)
         ++ (Some <$> all_records (st_repos st))).
Proof.
  induction l as [|r q IH]; intros st st'; simpl.
  - by intros [= <-].
  - intros H Hg. apply bind_Some in H as (st1 & Hstep & Hrest).
    destruct (process_repo_records _ _ _ Hstep Hg) as [Hg1 Hp1].
    destruct (IH _ _ Hrest Hg1) as [Hg' Hp'].
    split; [done|]. rewrite Hp', Hp1.
    destruct (included user r && visible include_private r); simpl.
    + by rewrite <- Permutation_middle.
    + done.
Qed.

Lemma sorted_groups_records (d : dict (list Repo)) :
  Permutation
    (all_records
       ((λ '(status, repo_list), (status, sort_desc last_modified repo_list))
          <$> d))
    (all_records d).
Proof.
  unfold all_records. induction d as [|[k l] q IH]; simpl; [done|].
  by rewrite IH, sort_desc_perm.
Qed.

Lemma sorted_groups_by_status (d : dict (list Repo)) :
  groups_by_status d →
  groups_by_status
    ((λ '(status, repo_list), (status, sort_desc last_modified repo_list))
       <$> d).
Proof.
  unfold groups_by_status. induction 1 as [|[k l] q Hl Hq IH]; simpl.
  - constructor.
  - constructor; [|done]. simpl in *. by rewrite sort_desc_perm.
Qed.

Lemma table_length_acc (d : dict (list Repo)) :
  ∀ table : list string,
    length
      (foldl (λ table '(status, repo_list),
                (table ++ [status_header status])
                ++ (Repo_markdown <$> repo_list))
         table d)
    = (length table + length d + length (all_records d))%nat.
Proof.
  induction d as [|[k l] q IH]; intros table; [simpl; lia|].
  cbn [foldl]. rewrite IH.
  change (all_records ((k, l) :: q)) with (l ++ all_records q).
  rewrite !length_app, length_fmap. simpl. lia.
Qed.

End Records.

Lemma Repos_init_inv (github : Github) (include_private : bool)
    (now : datetime) (R : Repos) :
  Repos_init github include_private now = Some R →
  ∃ st,
    process_repos include_private (get_user github) now loop_init
      (take 5 (get_repos github)) = Some st
    ∧ repos R
      = (λ '(status, repo_list), (status, sort_desc last_modified repo_list))
          <$> st_repos st
    ∧ gists R
      = sort_desc g_last_modified
          (Gist_init
             <$> List.filter (gist_visible include_private)
                   (get_gists github)).
Proof.
  unfold Repos_init, first_five. intros H.
  apply bind_Some in H as (first & Hfirst & H).
  apply bind_Some in H as (st & Hrun & [= <-]).
  destruct (get_repos github) as [|r q]; [done|].
  injection Hfirst as <-. by exists st.
Qed.

Lemma loop_init_groups : groups_by_status (st_repos loop_init).
Proof. repeat constructor. Qed.

(** X11.  The records of a result are, in some order, the records
    [Repo.__init__] builds for the repositories among the first five
    that the user owns or contributes to and that the privacy flag
    lets through; the gists are the records of the gists the flag lets
    through. *)
Theorem records_of_result (github : Github) (include_private : bool)
    (now : datetime) (R : Repos)
    (Hinit : Repos_init github include_private now = Some R) :
  Permutation (Some <$> all_records (repos R))
    ((λ r, Repo_init r now)
       <$> List.filter
             (λ r, included (get_user github) r && visible include_private r)
             (take 5 (get_repos github)))
  ∧ Permutation (gists R)
      (Gist_init
         <$> List.filter (gist_visible include_private) (get_gists github)).
Proof.
  destruct (Repos_init_inv _ _ _ _ Hinit) as (st & Hrun & -> & ->).
  split; [|apply sort_desc_perm].
  rewrite sorted_groups_records.
  destruct (process_repos_records _ _ _ _ _ _ Hrun loop_init_groups)
    as [_ Hp].
  rewrite Hp. by rewrite app_nil_r.
Qed.

Lemma records_of_result_witness :
  ∃ R, Repos_init Sample.github false Sample.now = Some R
  ∧ Permutation (Some <$> all_records (repos R))
      ((λ r, Repo_init r Sample.now)
         <$> List.filter
               (λ r, included (get_user Sample.github) r && visible false r)
               (take 5 (get_repos Sample.github)))
  ∧ Permutation (gists R)
      (Gist_init
         <$> List.filter (gist_visible false) (get_gists Sample.github)).
Proof.
  eexists. split; [vm_compute; reflexivity|].
  apply (records_of_result Sample.github false Sample.now).
  vm_compute. reflexivity.
Defined.

(** X12.  In a result every record stands in the group named by its
    status. *)
Theorem records_grouped_by_status (github : Github) (include_private : bool)
    (now : datetime) (R : Repos) (k : string) (l : list Repo) (rec : Repo)
    (Hinit : Repos_init github include_private now = Some R)
    (Hgroup : (k, l) ∈ repos R)
    (Hrec : rec ∈ l) :
  status rec = k.
Proof.
  destruct (Repos_init_inv _ _ _ _ Hinit) as (st & Hrun & Hrepos & _).
  destruct (process_repos_records _ _ _ _ _ _ Hrun loop_init_groups)
    as [Hg _].
  apply sorted_groups_by_status in Hg. rewrite <- Hrepos in Hg.
  unfold groups_by_status in Hg. rewrite Forall_forall in Hg.
  specialize (Hg _ Hgroup). simpl in Hg. rewrite Forall_forall in Hg.
  by apply Hg.
Qed.

(** X13.  In a result every group, and the list of gists, is sorted on
    the date string in reverse: a record stands before every record
    whose date string is smaller or equal. *)
Theorem result_sorted_newest_first (github : Github) (include_private : bool)
    (now : datetime) (R : Repos)
    (Hinit : Repos_init github include_private now = Some R) :
  Forall (λ kl, StronglySorted (newest_first last_modified) kl.2) (repos R)
  ∧ StronglySorted (newest_first g_last_modified) (gists R).
Proof.
  destruct (Repos_init_inv _ _ _ _ Hinit) as (st & _ & -> & ->).
  split; [|apply sort_desc_sorted].
  induction (st_repos st) as [|[k l] q IH]; simpl; [constructor|].
  constructor; [apply sort_desc_sorted|done].
Qed.

Lemma result_sorted_newest_first_witness :
  ∃ R, Repos_init Sample.github true Sample.now = Some R
  ∧ Forall (λ kl, StronglySorted (newest_first last_modified) kl.2) (repos R)
  ∧ StronglySorted (newest_first g_last_modified) (gists R).
Proof.
  eexists. split; [vm_compute; reflexivity|].
  apply (result_sorted_newest_first Sample.github true Sample.now).
  vm_compute. reflexivity.
Defined.

Lemma records_lengths (github : Github) (include_private : bool)
    (now : datetime) (R : Repos) :
  Repos_init github include_private now = Some R →
  length (all_records (repos R))
  = length
      (List.filter
         (λ r, included (get_user github) r && visible include_private r)
         (take 5 (get_repos github)))
  ∧ length (gists R)
    = length
        (List.filter (gist_visible include_private) (get_gists github)).
Proof.
  intros Hinit.
  destruct (Repos_init_inv _ _ _ _ Hinit) as (st & Hrun & -> & ->).
  split.
  - rewrite sorted_groups_records.
    destruct (process_repos_records _ _ _ _ _ _ Hrun loop_init_groups)
      as [_ Hp].
    apply Permutation_length in Hp.
    rewrite length_app, !length_fmap in Hp. simpl in Hp. lia.
  - by rewrite sort_desc_perm, length_fmap.
Qed.

(** X14.  The table of a result has five header elements and one
    element for each repository and each gist that is shown. *)
Theorem markdown_table_length (github : Github) (include_private : bool)
    (now : datetime) (R : Repos)
    (Hinit : Repos_init github include_private now = Some R) :
  length (markdown_table R)
  = (5
     + length
         (List.filter
            (λ r, included (get_user github) r && visible include_private r)
            (take 5 (get_repos github)))
     + length
         (List.filter (gist_visible include_private) (get_gists github)))%nat.
Proof.
  pose proof Hinit as Hinit'.
  destruct (Repos_init_inv _ _ _ _ Hinit) as (st & Hrun & Hrepos & Hgists).
  assert (length (repos R) = 3%nat) as Hlen.
  { rewrite Hrepos, length_fmap.
    apply process_repos_keys in Hrun.
    apply (f_equal length) in Hrun. unfold keys in Hrun.
    by rewrite length_fmap in Hrun. }
  destruct (records_lengths github include_private now R Hinit')
    as [Hr Hg].
  unfold markdown_table.
  rewrite !length_app, table_length_acc, length_fmap, Hlen, Hr, Hg.
  simpl. lia.
Qed.

Lemma records_grouped_by_status_witness :
  status SampleResult.archived_record = "Archive".
Proof.
  apply (records_grouped_by_status Sample.github true Sample.now
           SampleResult.result "Archive" [SampleResult.archived_record]).
  - vm_compute. reflexivity.
  - do 2 apply list_elem_of_further. apply list_elem_of_here.
  - apply list_elem_of_here.
Defined.

Lemma markdown_table_length_witness :
  length (markdown_table SampleResult.result)
  = (5
     + length
         (List.filter
            (λ r, included (get_user Sample.github) r && visible true r)
            (take 5 (get_repos Sample.github)))
     + length (List.filter (gist_visible true) (get_gists Sample.github)))%nat.
Proof.
  apply (markdown_table_length Sample.github true Sample.now).
  vm_compute. reflexivity.
Defined.

(** ** Rewriting README.md, continued *)

(** X15.  When the first marker line after the first line of the file
    is followed by a heading line, the rewrite finishes within as many
    iterations as the file has lines, and the file written is the
    lines before the marker, the table, an empty line, and the lines
    from the heading on. *)
Theorem rewrite_readme_splices (table : list string) (line0 : string)
    (pre body : list string) (h : string) (rest : list string) (fuel : nat)
    (Hpre : Forall (λ l, l ≠ PROJECTS_HEADER) pre)
    (Hbody : Forall (λ l, is_heading l = false) body)
    (Hh : is_heading h = true)
    (Hfuel : (length pre + length body < fuel)%nat) :
  rewrite_readme fuel (line0 :: pre ++ PROJECTS_HEADER :: body ++ h :: rest)
    table
  = Some ((line0 :: pre) ++ table ++ (nl +:+ h) :: rest)
  ∧ file_text ((line0 :: pre) ++ table ++ (nl +:+ h) :: rest)
    = file_text (line0 :: pre)
      +:+ (file_text table +:+ nl)
      +:+ file_text (h :: rest).
Proof.
  destruct (rewrite_readme_frame_content table line0 pre body h rest fuel)
    as (out & Hout & Htext); [done..|lia|lia|].
  rewrite (rewrite_readme_frame table line0 pre body h rest fuel) in Hout;
    [|done..|lia|lia].
  injection Hout as <-. split; [|done].
  apply rewrite_readme_frame; [done..|lia|lia].
Qed.

Lemma rewrite_readme_splices_witness :
  rewrite_readme 4 SampleReadme.typical SampleReadme.empty_table
  = Some (["# meta-repo" +:+ nl; "Some text." +:+ nl]
          ++ SampleReadme.empty_table
          ++ [nl +:+ ("## License" +:+ nl); "MIT" +:+ nl])
  ∧ file_text (["# meta-repo" +:+ nl; "Some text." +:+ nl]
               ++ SampleReadme.empty_table
               ++ [nl +:+ ("## License" +:+ nl); "MIT" +:+ nl])
    = file_text ["# meta-repo" +:+ nl; "Some text." +:+ nl]
      +:+ (file_text SampleReadme.empty_table +:+ nl)
      +:+ file_text ["## License" +:+ nl; "MIT" +:+ nl].
Proof.
  apply (rewrite_readme_splices SampleReadme.empty_table
           ("# meta-repo" +:+ nl) ["Some text." +:+ nl]
           ["| old table |" +:+ nl] ("## License" +:+ nl) ["MIT" +:+ nl] 4).
  - repeat constructor. discriminate.
  - repeat constructor.
  - reflexivity.
  - simpl. lia.
Defined.

(** X16.  When no line after the first one is the marker line, the
    scan for the marker never ends, whatever the first line is: this
    holds for an empty file, for a file without the section, and for a
    marker that lacks its newline. *)
Theorem rewrite_readme_hangs_without_marker (readme table : list string)
    (fuel : nat)
    (Hno : Forall (λ l, l ≠ PROJECTS_HEADER) (tail readme)) :
  rewrite_readme fuel readme table = None.
Proof. by apply rewrite_readme_no_marker. Qed.

Lemma rewrite_readme_hangs_without_marker_witness :
  rewrite_readme 1000 ["# title" +:+ nl; "## Projects"] [] = None.
Proof.
  apply (rewrite_readme_hangs_without_marker
           ["# title" +:+ nl; "## Projects"] [] 1000).
  repeat constructor. discriminate.
Defined.

(** X17.  When the marker line is found and no later line starts with
    "## ", the scan for the next heading never ends: no file is
    written when the Projects section is the last one. *)
Theorem rewrite_readme_hangs_without_heading (table : list string)
    (line0 : string) (pre body : list string) (fuel : nat)
    (Hpre : Forall (λ l, l ≠ PROJECTS_HEADER) pre)
    (Hbody : Forall (λ l, is_heading l = false) body) :
  rewrite_readme fuel (line0 :: pre ++ PROJECTS_HEADER :: body) table = None.
Proof. by apply rewrite_readme_no_heading. Qed.

Lemma rewrite_readme_hangs_without_heading_witness :
  rewrite_readme 1000
    (("# title" +:+ nl) :: [] ++ PROJECTS_HEADER :: ["### Current" +:+ nl]) []
  = None.
Proof.
  apply (rewrite_readme_hangs_without_heading [] ("# title" +:+ nl) []
           ["### Current" +:+ nl] 1000).
  - constructor.
  - repeat constructor.
Defined.

(** ** Reading back what was written *)

Section ReadBack.

Lemma string_app_nil_r (s : string) : s +:+ "" = s.
Proof.
  induction s as [|c s IH]; [done|].
  change (String c (s +:+ "") = String c s). by rewrite IH.
Qed.

Lemma file_text_cons (l : string) (q : list string) :
  file_text (l :: q) = l +:+ file_text q.
Proof. reflexivity. Qed.

Lemma split_lines_line (l s : string) :
  is_line l = true → split_lines (l +:+ s) = l :: split_lines s.
Proof.
  induction l as [|c l IH]; [done|].
  change (String c l +:+ s) with (String c (l +:+ s)).
  destruct l as [|c' l'].
  - cbn [is_line]. intros Hc. cbn [split_lines]. rewrite Hc. done.
  - cbn [is_line]. intros [Hc Hl]%andb_true_iff.
    apply negb_true_iff in Hc. cbn [split_lines]. rewrite Hc.
    cbn [split_lines] in IH. by rewrite (IH Hl).
Qed.

Lemma split_lines_text (ls : list string) (s : string) :
  Forall (λ l, is_line l = true) ls →
  split_lines (file_text ls +:+ s) = ls ++ split_lines s.
Proof.
  induction 1 as [|l q Hl Hq IH]; [done|].
  rewrite file_text_cons, <- string_app_assoc, split_lines_line by done.
  by rewrite IH.
Qed.

Lemma split_lines_file_text (ls : list string) :
  Forall (λ l, is_line l = true) ls → split_lines (file_text ls) = ls.
Proof.
  intros Hls. rewrite <- (string_app_nil_r (file_text ls)).
  rewrite split_lines_text by done. simpl. apply app_nil_r.
Qed.

(** A text without a carriage return is read as it is. *)
Lemma universal_newlines_no_cr (s : string) :
  no_cr s = true → universal_newlines s = s.
Proof.
  induction s as [|c s IH]; [done|].
  cbn [no_cr universal_newlines]. intros [Hc Hs]%andb_true_iff.
  apply negb_true_iff in Hc. rewrite Hc. by rewrite IH.
Qed.

Lemma no_cr_app (a b : string) : no_cr (a +:+ b) = no_cr a && no_cr b.
Proof.
  induction a as [|c a IH]; [done|].
  change (String c a +:+ b) with (String c (a +:+ b)).
  cbn [no_cr]. by rewrite IH, andb_assoc.
Qed.

Lemma no_cr_file_text (ls : list string) :
  Forall (λ l, no_cr l = true) ls → no_cr (file_text ls) = true.
Proof.
  induction 1 as [|l q Hl Hq IH]; [done|].
  by rewrite file_text_cons, no_cr_app, Hl, IH.
Qed.

Lemma file_lines_file_text (ls : list string) :
  Forall (λ l, is_line l = true) ls →
  Forall (λ l, no_cr l = true) ls →
  file_lines (file_text ls) = ls.
Proof.
  intros Hls Hcr. unfold file_lines.
  rewrite universal_newlines_no_cr by by apply no_cr_file_text.
  by apply split_lines_file_text.
Qed.

Lemma status_header_text (status : string) :
  status_header status = file_text (status_header_lines status).
Proof.
  unfold status_header, status_header_lines, file_text. cbn [foldr].
  rewrite <- !string_app_assoc. reflexivity.
Qed.

Lemma gists_header_text : gists_header = file_text gists_header_lines.
Proof. reflexivity. Qed.

Lemma table_text_acc (d : dict (list Repo)) :
  ∀ table : list string,
    file_text
      (foldl (λ table '(status, repo_list),
                (table ++ [status_header status])
                ++ (Repo_markdown <$> repo_list))
         table d)
    = file_text table
      +:+ file_text
            (concat
               ((λ '(status, repo_list),
                   status_header_lines status ++ (Repo_markdown <$> repo_list))
                  <$> d)).
Proof.
  induction d as [|[k l] q IH]; intros table.
  - simpl. by rewrite string_app_nil_r.
  - cbn [foldl fmap list_fmap concat]. rewrite IH.
    rewrite !file_text_app. rewrite <- !string_app_assoc. f_equal.
    change (file_text [status_header k]) with (status_header k +:+ "").
    by rewrite string_app_nil_r, status_header_text.
Qed.

Lemma markdown_table_text (self : Repos) :
  file_text (markdown_table self)
  = file_text (PROJECTS_HEADER :: table_body_lines self).
Proof.
  unfold markdown_table, table_body_lines.
  rewrite !file_text_app, table_text_acc.
  change (file_text [gists_header]) with (gists_header +:+ "").
  rewrite string_app_nil_r, gists_header_text.
  change (file_text [PROJECTS_HEADER]) with (PROJECTS_HEADER +:+ "").
  rewrite string_app_nil_r, file_text_cons, !file_text_app.
  by rewrite <- !string_app_assoc.
Qed.

Lemma is_line_status_header (status : string) :
  is_line (status +:+ nl) = true →
  Forall (λ l, is_line l = true) (status_header_lines status).
Proof.
  intros Hk. unfold status_header_lines.
  repeat constructor. 
  change (is_line ("### " +:+ status +:+ nl))
    with (is_line (String "#" (String "#" (String "#" (String " "
                     (status +:+ nl)))))).
  destruct (status +:+ nl) as [|c s] eqn:Hs; [done|]. exact Hk.
Qed.

Lemma no_heading_status_header (status : string) :
  Forall (λ l, is_heading l = false) (status_header_lines status).
Proof. repeat constructor. Qed.

Lemma no_cr_status_header (status : string) :
  no_cr status = true →
  Forall (λ l, no_cr l = true) (status_header_lines status).
Proof.
  intros Hk. unfold status_header_lines.
  repeat constructor. rewrite !no_cr_app, Hk. reflexivity.
Qed.

Lemma table_body_lines_no_cr (self : Repos) :
  Forall (λ k, no_cr k = true) (keys (repos self)) →
  Forall (λ rec, no_cr (Repo_markdown rec) = true)
    (all_records (repos self)) →
  Forall (λ g, no_cr (Gist_markdown g) = true) (gists self) →
  Forall (λ l, no_cr l = true) (table_body_lines self).
Proof.
  unfold table_body_lines, all_records, keys.
  intros Hkeys Hrows Hgists.
  rewrite !Forall_app. split; [|split; [by repeat constructor|]].
  - clear Hgists.
    induction (repos self) as [|[k l] q IH]; [constructor|].
    cbn [fmap list_fmap concat fst snd] in *.
    apply Forall_cons in Hkeys as [Hk Hq].
    apply Forall_app in Hrows as [Hl Hrows].
    rewrite !Forall_app. split; [split|by apply IH].
    + by apply no_cr_status_header.
    + by apply Forall_fmap.
  - by apply Forall_fmap.
Qed.

Lemma table_body_lines_ok (self : Repos) :
  Forall (λ k, is_line (k +:+ nl) = true) (keys (repos self)) →
  Forall (λ rec, is_line (Repo_markdown rec) = true)
    (all_records (repos self)) →
  Forall (λ g, is_line (Gist_markdown g) = true) (gists self) →
  Forall (λ l, is_line l = true) (table_body_lines self)
  ∧ Forall (λ l, is_heading l = false) (table_body_lines self).
Proof.
  unfold table_body_lines, all_records, keys.
  intros Hkeys Hrows Hgists.
  assert (Forall (λ l, is_line l = true) (Gist_markdown <$> gists self)
          ∧ Forall (λ l, is_heading l = false) (Gist_markdown <$> gists self))
    as [Hg1 Hg2].
  { split; apply Forall_fmap.
    - done.
    - apply Forall_true. intros g. reflexivity. }
  rewrite !Forall_app. split; (split; [|split; [by repeat constructor|done]]).
  - clear Hgists Hg1 Hg2.
    induction (repos self) as [|[k l] q IH]; [constructor|].
    cbn [fmap list_fmap concat fst snd] in *.
    apply Forall_cons in Hkeys as [Hk Hq].
    apply Forall_app in Hrows as [Hl Hrows].
    rewrite !Forall_app. split; [split|by apply IH].
    + by apply is_line_status_header.
    + by apply Forall_fmap.
  - clear Hkeys Hrows Hgists Hg1 Hg2.
    induction (repos self) as [|[k l] q IH]; [constructor|].
    cbn [fmap list_fmap concat]. rewrite !Forall_app.
    split; [split|done].
    + apply no_heading_status_header.
    + apply Forall_fmap, Forall_true. intros r. reflexivity.
Qed.

(** A second run on the file a first run wrote. *)
Lemma rewrite_readme_again (table tlines : list string) (line0 : string)
    (pre : list string) (h : string) (rest : list string) (fuel : nat) :
  file_text table = file_text (PROJECTS_HEADER :: tlines) →
  Forall (λ l, is_line l = true) tlines →
  Forall (λ l, no_cr l = true) tlines →
  Forall (λ l, is_heading l = false) tlines →
  Forall (λ l, is_line l = true) (line0 :: pre ++ h :: rest) →
  Forall (λ l, no_cr l = true) (line0 :: pre ++ h :: rest) →
  Forall (λ l, l ≠ PROJECTS_HEADER) pre →
  is_heading h = true →
  (length pre + length tlines + 1 < fuel)%nat →
  rewrite_readme fuel
    (file_lines (file_text ((line0 :: pre) ++ table ++ (nl +:+ h) :: rest)))
    table
  = Some ((line0 :: pre) ++ table ++ (nl +:+ h) :: rest).
Proof.
  intros Htable Hl Hcr Hnh Hdoc Hdcr Hpre Hh Hfuel.
  apply Forall_cons in Hdoc as [Hl0 Hdoc].
  apply Forall_app in Hdoc as [Hlpre Hdoc].
  apply Forall_cons in Hdoc as [Hlh Hlrest].
  apply Forall_cons in Hdcr as [Hc0 Hdcr].
  apply Forall_app in Hdcr as [Hcpre Hdcr].
  apply Forall_cons in Hdcr as [Hch Hcrest].
  assert (file_text ((line0 :: pre) ++ table ++ (nl +:+ h) :: rest)
          = file_text (line0 :: pre ++ PROJECTS_HEADER
                         :: (tlines ++ [nl]) ++ h :: rest)) as ->.
  { change (line0 :: pre ++ PROJECTS_HEADER :: (tlines ++ [nl]) ++ h :: rest)
      with ((line0 :: pre)
              ++ (PROJECTS_HEADER :: tlines ++ [nl]) ++ h :: rest).
    rewrite !file_text_app, Htable.
    change (PROJECTS_HEADER :: tlines ++ [nl])
      with ((PROJECTS_HEADER :: tlines) ++ [nl]).
    rewrite file_text_app. rewrite !file_text_cons.
    change (file_text []) with "". rewrite string_app_nil_r.
    by rewrite <- !string_app_assoc. }
  rewrite file_lines_file_text.
  - apply rewrite_readme_frame; [done| |done|lia|].
    + apply Forall_app. split; [done|]. by repeat constructor.
    + rewrite length_app. simpl. lia.
  - constructor; [done|]. apply Forall_app. split; [done|].
    constructor; [reflexivity|].
    rewrite Forall_app. split; [|by constructor].
    apply Forall_app. split; [done|]. by repeat constructor.
  - constructor; [done|]. apply Forall_app. split; [done|].
    constructor; [reflexivity|].
    rewrite Forall_app. split; [|by constructor].
    apply Forall_app. split; [done|]. by repeat constructor.
Qed.

End ReadBack.

Lemma Repos_init_keys (github : Github) (include_private : bool)
    (now : datetime) (R : Repos) :
  Repos_init github include_private now = Some R →
  keys (repos R) = status_options.
Proof.
  intros Hinit.
  destruct (Repos_init_inv _ _ _ _ Hinit) as (st & Hrun & -> & _).
  apply process_repos_keys in Hrun.
  transitivity (keys (st_repos st)); [|exact Hrun].
  clear Hrun. unfold keys.
  induction (st_repos st) as [|[k l] q IH]; [done|].
  cbn [fmap list_fmap fst]. f_equal. exact IH.
Qed.

Lemma Repos_init_table_lines (github : Github) (include_private : bool)
    (now : datetime) (R : Repos) :
  Repos_init github include_private now = Some R →
  Forall (λ rec, is_line (Repo_markdown rec) = true)
    (all_records (repos R)) →
  Forall (λ g, is_line (Gist_markdown g) = true) (gists R) →
  Forall (λ l, is_line l = true) (table_body_lines R)
  ∧ Forall (λ l, is_heading l = false) (table_body_lines R).
Proof.
  intros Hinit Hrows Hgists. apply table_body_lines_ok; [|done..].
  rewrite (Repos_init_keys _ _ _ _ Hinit). by repeat constructor.
Qed.

Lemma Repos_init_table_no_cr (github : Github) (include_private : bool)
    (now : datetime) (R : Repos) :
  Repos_init github include_private now = Some R →
  Forall (λ rec, no_cr (Repo_markdown rec) = true)
    (all_records (repos R)) →
  Forall (λ g, no_cr (Gist_markdown g) = true) (gists R) →
  Forall (λ l, no_cr l = true) (table_body_lines R).
Proof.
  intros Hinit Hrows Hgists. apply table_body_lines_no_cr; [|done..].
  rewrite (Repos_init_keys _ _ _ _ Hinit). by repeat constructor.
Qed.

(** X18.  When no row of the table holds a line feed of its own or a
    carriage return, the table written by a result reads back, in
    text mode, as the marker line followed by complete lines none of
    which starts with "## ": the table never ends its own section. *)
Theorem markdown_table_reads_back (github : Github) (include_private : bool)
    (now : datetime) (R : Repos)
    (Hinit : Repos_init github include_private now = Some R)
    (Hrows : Forall (λ rec, is_line (Repo_markdown rec) = true)
               (all_records (repos R)))
    (Hgists : Forall (λ g, is_line (Gist_markdown g) = true) (gists R))
    (Hrows_cr : Forall (λ rec, no_cr (Repo_markdown rec) = true)
                  (all_records (repos R)))
    (Hgists_cr : Forall (λ g, no_cr (Gist_markdown g) = true) (gists R)) :
  file_lines (file_text (markdown_table R))
  = PROJECTS_HEADER :: table_body_lines R
  ∧ Forall (λ l, is_heading l = false) (table_body_lines R).
Proof.
  destruct (Repos_init_table_lines _ _ _ _ Hinit Hrows Hgists) as [Hl Hnh].
  pose proof (Repos_init_table_no_cr _ _ _ _ Hinit Hrows_cr Hgists_cr) as Hcr.
  split; [|done].
  rewrite markdown_table_text. apply file_lines_file_text; by constructor.
Qed.

Lemma sample_rows_are_lines :
  Forall (λ rec, is_line (Repo_markdown rec) = true)
    (all_records (repos SampleResult.result))
  ∧ Forall (λ g, is_line (Gist_markdown g) = true)
      (gists SampleResult.result).
Proof. split; vm_compute; repeat constructor. Defined.

Lemma sample_rows_no_cr :
  Forall (λ rec, no_cr (Repo_markdown rec) = true)
    (all_records (repos SampleResult.result))
  ∧ Forall (λ g, no_cr (Gist_markdown g) = true)
      (gists SampleResult.result).
Proof. split; vm_compute; repeat constructor. Defined.

Lemma markdown_table_reads_back_witness :
  file_lines (file_text (markdown_table SampleResult.result))
  = PROJECTS_HEADER :: table_body_lines SampleResult.result
  ∧ Forall (λ l, is_heading l = false)
      (table_body_lines SampleResult.result).
Proof.
  apply (markdown_table_reads_back Sample.github true Sample.now).
  - vm_compute. reflexivity.
  - exact (proj1 sample_rows_are_lines).
  - exact (proj2 sample_rows_are_lines).
  - exact (proj1 sample_rows_no_cr).
  - exact (proj2 sample_rows_no_cr).
Defined.

(** A row with a carriage return in it is one line when written and
    two when read back. *)
Example carriage_return_splits_row :
  is_line ("| a" +:+ String "013" "b |" +:+ nl) = true
  ∧ file_lines ("| a" +:+ String "013" "b |" +:+ nl)
    = ["| a" +:+ nl; "b |" +:+ nl].
Proof. split; reflexivity. Qed.

(** X19.  Running the rewrite a second time with the same result, on
    the file the first run wrote as it is read back in text mode,
    writes the same file again: the empty line the first run puts
    before the next heading is dropped with the old section and put
    back.  This needs a README of complete lines, as [readline]
    returns them in text mode (so with no carriage return), and rows
    without a line feed of their own or a carriage return. *)
Theorem rewrite_readme_twice (github : Github) (include_private : bool)
    (now : datetime) (R : Repos) (line0 : string) (pre body : list string)
    (h : string) (rest : list string) (fuel fuel2 : nat)
    (Hinit : Repos_init github include_private now = Some R)
    (Hrows : Forall (λ rec, is_line (Repo_markdown rec) = true)
               (all_records (repos R)))
    (Hgists : Forall (λ g, is_line (Gist_markdown g) = true) (gists R))
    (Hrows_cr : Forall (λ rec, no_cr (Repo_markdown rec) = true)
                  (all_records (repos R)))
    (Hgists_cr : Forall (λ g, no_cr (Gist_markdown g) = true) (gists R))
    (Hdoc : Forall (λ l, is_line l = true) (line0 :: pre ++ h :: rest))
    (Hdoc_cr : Forall (λ l, no_cr l = true) (line0 :: pre ++ h :: rest))
    (Hpre : Forall (λ l, l ≠ PROJECTS_HEADER) pre)
    (Hbody : Forall (λ l, is_heading l = false) body)
    (Hh : is_heading h = true)
    (Hfuel : (length pre + length body < fuel)%nat)
    (Hfuel2 : (length pre + length (table_body_lines R) + 1 < fuel2)%nat) :
  rewrite_readme fuel (line0 :: pre ++ PROJECTS_HEADER :: body ++ h :: rest)
    (markdown_table R)
  = Some ((line0 :: pre) ++ markdown_table R ++ (nl +:+ h) :: rest)
  ∧ rewrite_readme fuel2
      (file_lines
         (file_text ((line0 :: pre) ++ markdown_table R ++ (nl +:+ h) :: rest)))
      (markdown_table R)
    = Some ((line0 :: pre) ++ markdown_table R ++ (nl +:+ h) :: rest).
Proof.
  destruct (Repos_init_table_lines _ _ _ _ Hinit Hrows Hgists) as [Hl Hnh].
  pose proof (Repos_init_table_no_cr _ _ _ _ Hinit Hrows_cr Hgists_cr) as Hcr.
  split.
  - apply rewrite_readme_frame; [done..|lia|lia].
  - apply (rewrite_readme_again _ (table_body_lines R)); [|done..].
    apply markdown_table_text.
Qed.

Lemma rewrite_readme_twice_witness :
  rewrite_readme 4
    (("# meta-repo" +:+ nl) :: ["Some text." +:+ nl]
       ++ PROJECTS_HEADER :: ["| old table |" +:+ nl]
       ++ ("## License" +:+ nl) :: ["MIT" +:+ nl])
    (markdown_table SampleResult.result)
  = Some ((("# meta-repo" +:+ nl) :: ["Some text." +:+ nl])
          ++ markdown_table SampleResult.result
          ++ (nl +:+ ("## License" +:+ nl)) :: ["MIT" +:+ nl])
  ∧ rewrite_readme 40
      (file_lines
         (file_text
            ((("# meta-repo" +:+ nl) :: ["Some text." +:+ nl])
             ++ markdown_table SampleResult.result
             ++ (nl +:+ ("## License" +:+ nl)) :: ["MIT" +:+ nl])))
      (markdown_table SampleResult.result)
    = Some ((("# meta-repo" +:+ nl) :: ["Some text." +:+ nl])
            ++ markdown_table SampleResult.result
            ++ (nl +:+ ("## License" +:+ nl)) :: ["MIT" +:+ nl]).
Proof.
  apply (rewrite_readme_twice Sample.github true Sample.now
           SampleResult.result ("# meta-repo" +:+ nl) ["Some text." +:+ nl]
           ["| old table |" +:+ nl] ("## License" +:+ nl) ["MIT" +:+ nl]
           4 40).
  - vm_compute. reflexivity.
  - exact (proj1 sample_rows_are_lines).
  - exact (proj2 sample_rows_are_lines).
  - exact (proj1 sample_rows_no_cr).
  - exact (proj2 sample_rows_no_cr).
  - repeat constructor.
  - repeat constructor.
  - repeat constructor. discriminate.
  - repeat constructor.
  - reflexivity.
  - simpl. lia.
  - vm_compute. lia.
Defined.

(** ** The date string as a sort key *)

Section DateKey.

Lemma digit_compare (a b : Z) :
  0 ≤ a ≤ 9 → 0 ≤ b ≤ 9 →
  Ascii.compare (ascii_of_nat (48 + Z.to_nat a))
    (ascii_of_nat (48 + Z.to_nat b))
  = (a ?= b).
Proof.
  intros Ha Hb.
  assert (a = 0 ∨ a = 1 ∨ a = 2 ∨ a = 3 ∨ a = 4 ∨ a = 5 ∨ a = 6 ∨ a = 7
          ∨ a = 8 ∨ a = 9) as Ha' by lia.
  assert (b = 0 ∨ b = 1 ∨ b = 2 ∨ b = 3 ∨ b = 4 ∨ b = 5 ∨ b = 6 ∨ b = 7
          ∨ b = 8 ∨ b = 9) as Hb' by lia.
  clear Ha Hb.
  repeat (destruct Ha' as [->|Ha']); try subst a;
    repeat (destruct Hb' as [->|Hb']); try subst b; reflexivity.
Qed.

Lemma two_digits_compare (n m : Z) (s t : string) :
  0 ≤ n ≤ 99 → 0 ≤ m ≤ 99 →
  String.compare (two_digits n +:+ s) (two_digits m +:+ t)
  = match n ?= m with Eq => String.compare s t | c => c end.
Proof.
  intros Hn Hm.
  change (two_digits n +:+ s)
    with (String (ascii_of_nat (48 + Z.to_nat (n / 10)))
            (String (ascii_of_nat (48 + Z.to_nat (n mod 10))) s)).
  change (two_digits m +:+ t)
    with (String (ascii_of_nat (48 + Z.to_nat (m / 10)))
            (String (ascii_of_nat (48 + Z.to_nat (m mod 10))) t)).
  cbn [String.compare].
  rewrite !digit_compare by (Z.to_euclidean_division_equations; lia).
  destruct (Z.compare_spec (n / 10) (m / 10));
    destruct (Z.compare_spec (n mod 10) (m mod 10));
    destruct (Z.compare_spec n m);
    try reflexivity; exfalso; Z.to_euclidean_division_equations; lia.
Qed.

Lemma four_digits_compare (n m : Z) (s t : string) :
  0 ≤ n ≤ 9999 → 0 ≤ m ≤ 9999 →
  String.compare (four_digits n +:+ s) (four_digits m +:+ t)
  = match n ?= m with Eq => String.compare s t | c => c end.
Proof.
  intros Hn Hm. unfold four_digits.
  rewrite <- !string_app_assoc.
  rewrite !two_digits_compare by (Z.to_euclidean_division_equations; lia).
  destruct (Z.compare_spec (n / 100) (m / 100));
    destruct (Z.compare_spec (n mod 100) (m mod 100));
    destruct (Z.compare_spec n m);
    try reflexivity; exfalso; Z.to_euclidean_division_equations; lia.
Qed.

Lemma dash_compare (s t : string) :
  String.compare ("-" +:+ s) ("-" +:+ t) = String.compare s t.
Proof. reflexivity. Qed.

Lemma strftime_Ymd_compare (a b : datetime) :
  four_digit_date a → four_digit_date b →
  String.compare (strftime_Ymd a) (strftime_Ymd b) = date_compare a b.
Proof.
  intros (Hy & Hm & Hd) (Hy' & Hm' & Hd').
  unfold strftime_Ymd, date_compare.
  rewrite four_digits_compare, dash_compare by lia.
  rewrite two_digits_compare, dash_compare by lia.
  rewrite <- (string_app_nil_r (two_digits (day a))).
  rewrite <- (string_app_nil_r (two_digits (day b))).
  rewrite two_digits_compare by lia.
  destruct (year a ?= year b); [|done..].
  destruct (month a ?= month b); [|done..].
  by destruct (day a ?= day b).
Qed.

End DateKey.

(** X20.  For timestamps with a four-digit year the date string used
    as the sort key orders as the calendar date does, by year, then
    month, then day: a record may stand before another in a sorted
    group exactly when its date is not the earlier one. *)
Theorem date_string_orders_as_date (a b : datetime)
    (Ha : four_digit_date a) (Hb : four_digit_date b) :
  String.compare (strftime_Ymd a) (strftime_Ymd b) = date_compare a b
  ∧ (String.leb (strftime_Ymd b) (strftime_Ymd a) = true
     ↔ date_compare a b ≠ Lt).
Proof.
  split; [by apply strftime_Ymd_compare|].
  unfold String.leb. rewrite (strftime_Ymd_compare b a) by done.
  unfold date_compare.
  rewrite (Z.compare_antisym (year a) (year b)),
    (Z.compare_antisym (month a) (month b)),
    (Z.compare_antisym (day a) (day b)).
  destruct (year a ?= year b); simpl; [|intuition congruence..].
  destruct (month a ?= month b); simpl; [|intuition congruence..].
  destruct (day a ?= day b); simpl; intuition congruence.
Qed.

Lemma date_string_orders_as_date_witness :
  String.compare (strftime_Ymd (mkDatetime 2019 12 31 23 59 59 0))
    (strftime_Ymd (mkDatetime 2020 1 2 0 0 0 0))
  = date_compare (mkDatetime 2019 12 31 23 59 59 0)
      (mkDatetime 2020 1 2 0 0 0 0)
  ∧ (String.leb (strftime_Ymd (mkDatetime 2020 1 2 0 0 0 0))
       (strftime_Ymd (mkDatetime 2019 12 31 23 59 59 0)) = true
     ↔ date_compare (mkDatetime 2019 12 31 23 59 59 0)
         (mkDatetime 2020 1 2 0 0 0 0) ≠ Lt).
Proof.
  apply (date_string_orders_as_date (mkDatetime 2019 12 31 23 59 59 0)
           (mkDatetime 2020 1 2 0 0 0 0)).
  - repeat split; simpl; lia.
  - repeat split; simpl; lia.
Defined.

(** ** Totals of the counters *)

Section Totals.

Lemma total_add (s : LangStat) (key : string) (value : Z) :
  total (counter (add s key value)) = total (counter s) + value.
Proof.
  unfold total, add, count. cbn [counter].
  assert (∀ (m : gmap string Z) (j1 j2 : string) (z1 z2 y : Z),
            j1 ≠ j2 → m !! j1 = Some z1 → m !! j2 = Some z2 →
            z1 + (z2 + y) = z2 + (z1 + y)) as Hcomm by (intros; lia).
  destruct (counter s !! key) as [x|] eqn:Hx; simpl.
  - rewrite <- insert_delete_eq.
    rewrite map_fold_insert_L; [|by apply Hcomm|by apply lookup_delete_eq].
    rewrite (map_fold_delete_L _ _ key x (counter s)); [lia|by apply Hcomm|done].
  - rewrite map_fold_insert_L; [lia|by apply Hcomm|done].
Qed.

Lemma total_update (s : LangStat) (l : list string) :
  total (counter (update s l)) = total (counter s) + Z.of_nat (length l).
Proof.
  unfold update. revert s.
  induction l as [|k q IH]; intros s; [simpl; lia|].
  cbn [foldl]. rewrite IH, total_add. simpl length. lia.
Qed.

Lemma total_add_all_bytes gh_repo (items : list (string * Z)) :
  ∀ s s',
    add_all_bytes gh_repo items s = Some s' →
    total (counter s') = total (counter s) + sum_values items.
Proof.
  induction items as [|[k v] q IH]; intros s s'.
  - intros [= <-]. simpl. lia.
  - cbn [add_all_bytes]. intros H. apply bind_Some in H as (n & _ & H).
    rewrite (IH _ _ H), total_add. simpl. lia.
Qed.

Lemma total_record_languages gh_repo ld ld' :
  record_languages gh_repo ld = Some ld' →
  total (counter (all_bytes ld'))
  = total (counter (all_bytes ld)) + sum_values (get_languages gh_repo)
  ∧ total (counter (all_repos ld'))
    = total (counter (all_repos ld))
      + Z.of_nat (length (get_languages gh_repo))
  ∧ total (counter (top_repos ld'))
    = total (counter (top_repos ld))
      + (if has_languages gh_repo then 1 else 0).
Proof.
  unfold record_languages, has_languages.
  destruct (get_languages gh_repo) as [|kv q] eqn:Hl.
  { intros [= <-]. simpl. repeat split; lia. }
  intros H.
  apply bind_Some in H as (ab & Hab & H).
  apply bind_Some in H as (top & Htop & H).
  apply bind_Some in H as (tv & Htv & H).
  injection H as <-. cbn [all_bytes all_repos top_bytes top_repos].
  split; [|split].
  - by rewrite (total_add_all_bytes _ _ _ _ Hab).
  - etrans; [exact (total_update (all_repos ld) (keys (kv :: q)))|].
    unfold keys. by rewrite length_fmap.
  - by rewrite total_add.
Qed.

Lemma total_process_repos ip user now (l : list Repository) :
  ∀ st st',
    process_repos ip user now st l = Some st' →
    total (counter (all_bytes (language_data st')))
    = total (counter (all_bytes (language_data st)))
      + sum_over (λ r, if included user r
                       then sum_values (get_languages r) else 0) l
    ∧ total (counter (all_repos (language_data st')))
      = total (counter (all_repos (language_data st)))
        + sum_over (λ r, if included user r
                         then Z.of_nat (length (get_languages r)) else 0) l
    ∧ total (counter (top_repos (language_data st')))
      = total (counter (top_repos (language_data st)))
        + sum_over (λ r, if included user r && has_languages r
                         then 1 else 0) l.
Proof.
  induction l as [|r q IH]; intros st st'.
  - intros [= <-]. simpl. repeat split; lia.
  - cbn [process_repos sum_over foldr]. intros H.
    apply bind_Some in H as (st1 & Hstep & Hrest).
    destruct (IH _ _ Hrest) as (B1 & B2 & B3).
    fold (sum_over (λ r, if included user r
                         then sum_values (get_languages r) else 0) q) in *.
    fold (sum_over (λ r, if included user r
                         then Z.of_nat (length (get_languages r)) else 0) q)
      in *.
    fold (sum_over (λ r, if included user r && has_languages r
                         then 1 else 0) q) in *.
    rewrite B1, B2, B3.
    apply process_repo_language_data in Hstep.
    destruct (included user r); simpl.
    + destruct (total_record_languages _ _ _ Hstep) as (A1 & A2 & A3).
      rewrite A1, A2, A3. repeat split; lia.
    + subst. repeat split; lia.
Qed.

End Totals.

(** X21.  After a pass that completes, the values of the top_repos
    counter add up to the number of repositories of the user with a
    non-empty language mapping (each has one dominant language), the
    values of all_repos to the number of their language entries, and
    the values of all_bytes to the sum of their linguist byte
    counts. *)
Theorem counter_totals (include_private : bool) (user : NamedUser)
    (now : datetime) (l : list Repository) (st : LoopState)
    (Hrun : process_repos include_private user now loop_init l = Some st) :
  total (counter (top_repos (language_data st)))
  = sum_over (λ r, if included user r && has_languages r then 1 else 0) l
  ∧ total (counter (all_repos (language_data st)))
    = sum_over (λ r, if included user r
                     then Z.of_nat (length (get_languages r)) else 0) l
  ∧ total (counter (all_bytes (language_data st)))
    = sum_over (λ r, if included user r
                     then sum_values (get_languages r) else 0) l.
Proof.
  destruct (total_process_repos _ _ _ l _ _ Hrun) as (A1 & A2 & A3).
  rewrite A1, A2, A3. done.
Qed.

Lemma counter_totals_witness :
  total
    (counter
       (top_repos
          (language_data
             (Sample.state_after (take 5 (get_repos Sample.github))))))
  = sum_over (λ r, if included Sample.me r && has_languages r then 1 else 0)
      (take 5 (get_repos Sample.github))
  ∧ total
      (counter
         (all_repos
            (language_data
               (Sample.state_after (take 5 (get_repos Sample.github))))))
    = sum_over (λ r, if included Sample.me r
                     then Z.of_nat (length (get_languages r)) else 0)
        (take 5 (get_repos Sample.github))
  ∧ total
      (counter
         (all_bytes
            (language_data
               (Sample.state_after (take 5 (get_repos Sample.github))))))
    = sum_over (λ r, if included Sample.me r
                     then sum_values (get_languages r) else 0)
        (take 5 (get_repos Sample.github)).
Proof.
  apply (counter_totals false Sample.me Sample.now).
  vm_compute. reflexivity.
Defined.

Example sample_totals :
  total
    (counter
       (top_repos
          (language_data
             (Sample.state_after (take 5 (get_repos Sample.github))))))
  = 3
  ∧ total
      (counter
         (all_bytes
            (language_data
               (Sample.state_after (take 5 (get_repos Sample.github))))))
    = 1550.
Proof.
  split; vm_compute; reflexivity.
Qed.

(** X22.  [LangStat.update] counts every occurrence of a key of the
    iterable, duplicates included, and [LangStat.add] raises the
    counter of its key by the value, a missing key counting from 0;
    other keys and the description, count type and file name are
    left as they are. *)
Theorem langstat_add_update (s : LangStat) (key lang : string) (value : Z)
    (iterable : list string) :
  count (counter (add s key value)) lang
  = count (counter s) lang + (if decide (key = lang) then value else 0)
  ∧ count (counter (update s iterable)) lang
    = count (counter s) lang + occurrences lang iterable
  ∧ ls_description (update s iterable) = ls_description s
  ∧ count_type (update s iterable) = count_type s
  ∧ filename (update s iterable) = filename s.
Proof.
  split; [apply count_add|]. split; [apply count_update|].
  unfold update. revert s.
  induction iterable as [|k q IH]; intros s; [done|].
  cbn [foldl]. destruct (IH (add s k 1)) as (A & B & C).
  by rewrite A, B, C.
Qed.

(** X23.  A line without a lone surrogate always encodes, to at least
    one and at most four bytes per character; a line of ASCII
    characters counts one byte per character. *)
Theorem utf8_len_bounds (line : text) :
  (Forall (λ c, ¬ (0xD800 ≤ c ≤ 0xDFFF)%N) line →
   ∃ n, utf8_len line = Some n
        ∧ Z.of_nat (length line) ≤ n ≤ 4 * Z.of_nat (length line))
  ∧ (Forall (λ c, (c < 0x80)%N) line →
     utf8_len line = Some (Z.of_nat (length line))).
Proof.
  split.
  - induction 1 as [|c q Hc Hq (n & Hn & Hb)]; simpl.
    + exists 0. split; [done|lia].
    + unfold utf8_char_len.
      destruct (N.ltb_spec c 0x80); [|destruct (N.ltb_spec c 0x800)];
        [rewrite Hn; simpl; eexists; split; [done|lia]..|].
      destruct (N.leb_spec 0xD800 c), (N.leb_spec c 0xDFFF); simpl;
        [lia|..];
        (destruct (N.ltb_spec c 0x10000);
         rewrite Hn; simpl; eexists; (split; [done|lia])).
  - induction 1 as [|c q Hc Hq IH]; simpl; [done|].
    unfold utf8_char_len. destruct (N.ltb_spec c 0x80); [|lia].
    rewrite IH. simpl. f_equal. lia.
Qed.

Lemma utf8_len_bounds_witness :
  (∃ n, utf8_len (text_of_ascii "caf" ++ [233%N]) = Some n
        ∧ Z.of_nat (length (text_of_ascii "caf" ++ [233%N])) ≤ n
          ≤ 4 * Z.of_nat (length (text_of_ascii "caf" ++ [233%N])))
  ∧ utf8_len (text_of_ascii "import os")
    = Some (Z.of_nat (length (text_of_ascii "import os"))).
Proof.
  split.
  - apply (proj1 (utf8_len_bounds (text_of_ascii "caf" ++ [233%N]))).
    repeat constructor; simpl; lia.
  - apply (proj2 (utf8_len_bounds (text_of_ascii "import os"))).
    repeat constructor.
Defined.

(** ** A listing without directories *)

Lemma visited_flat (l : list ContentFile) :
  Forall (λ e, String.eqb (cf_type e) "dir" = false) l →
  visited l = removelast l.
Proof.
  induction 1 as [|f q Hf Hq IH]; [by simp visited|].
  destruct q as [|e rest]; [by simp visited|].
  simp visited. unfold expand at 1. rewrite Hf, app_nil_r.
  rewrite IH. reflexivity.
Qed.

(** X24.  When the root listing holds no directory, the entries
    examined are all but the last one of the listing, in order: the
    count is that of the notebooks among them, and it raises exactly
    when one of them is a notebook that does not parse. *)
Theorem count_jupyter_bytes_flat (root : list ContentFile)
    (Hflat : Forall (λ e, String.eqb (cf_type e) "dir" = false) root) :
  count_jupyter_bytes root = visit_all (removelast root) 0
  ∧ (count_jupyter_bytes root = None
     ↔ Exists bad_notebook (removelast root)).
Proof.
  assert (count_jupyter_bytes root = visit_all (removelast root) 0) as Heq.
  { unfold count_jupyter_bytes. rewrite count_loop_visited.
    rewrite (visited_flat root Hflat).
    by destruct (visit_all (removelast root) 0). }
  split; [done|]. rewrite Heq. apply visit_all_None.
Qed.

Lemma count_jupyter_bytes_flat_witness :
  count_jupyter_bytes [Sample.notebook37; Sample.readme_md]
  = visit_all (removelast [Sample.notebook37; Sample.readme_md]) 0
  ∧ (count_jupyter_bytes [Sample.notebook37; Sample.readme_md] = None
     ↔ Exists bad_notebook (removelast [Sample.notebook37; Sample.readme_md])).
Proof.
  apply (count_jupyter_bytes_flat [Sample.notebook37; Sample.readme_md]).
  repeat constructor.
Defined.

(** ** The bars of a chart *)

Section MostCommon.

Lemma insert_by_count_perm (x : string * Z) (l : list (string * Z)) :
  Permutation (insert_by_count x l) (x :: l).
Proof.
  induction l as [|y q IH]; simpl; [done|].
  destruct (x.2 <? y.2); [|done]. rewrite IH. apply perm_swap.
Qed.

Lemma most_common_perm (items : dict Z) :
  Permutation (most_common items) items.
Proof.
  induction items as [|x q IH]; simpl; [done|].
  change (foldr insert_by_count [] q) with (most_common q).
  by rewrite insert_by_count_perm, IH.
Qed.

Lemma insert_by_count_sorted (x : string * Z) (l : list (string * Z)) :
  StronglySorted (λ a b, b.2 ≤ a.2) l →
  StronglySorted (λ a b, b.2 ≤ a.2) (insert_by_count x l).
Proof.
  induction 1 as [|y q Hq IH Hy]; simpl.
  - repeat constructor.
  - destruct (Z.ltb_spec x.2 y.2) as [Hlt|Hge].
    + constructor; [done|].
      rewrite (Forall_forall (λ b, b.2 ≤ y.2)).
      intros z Hz. rewrite insert_by_count_perm in Hz.
      apply elem_of_cons in Hz as [->|Hz]; [lia|].
      rewrite Forall_forall in Hy. by apply Hy.
    + constructor; [by constructor|]. constructor; [done|].
      eapply Forall_impl; [exact Hy|]. simpl. intros z Hz. lia.
Qed.

Lemma most_common_sorted (items : dict Z) :
  StronglySorted (λ a b, b.2 ≤ a.2) (most_common items).
Proof.
  induction items as [|x q IH]; simpl; [constructor|].
  by apply insert_by_count_sorted.
Qed.

Lemma insert_by_count_stable (v : Z) (x : string * Z)
    (l : list (string * Z)) :
  List.filter (λ a, a.2 =? v) (insert_by_count x l)
  = List.filter (λ a, a.2 =? v) (x :: l).
Proof.
  induction l as [|y q IH]; [done|]. cbn [insert_by_count].
  destruct (Z.ltb_spec x.2 y.2) as [Hlt|Hge]; [|done].
  cbn [List.filter] in *. rewrite IH.
  destruct (Z.eqb_spec x.2 v); [|done].
  destruct (Z.eqb_spec y.2 v); [lia|done].
Qed.

Lemma most_common_stable (v : Z) (items : dict Z) :
  List.filter (λ a, a.2 =? v) (most_common items)
  = List.filter (λ a, a.2 =? v) items.
Proof.
  induction items as [|x q IH]; [done|].
  change (most_common (x :: q)) with (insert_by_count x (most_common q)).
  rewrite insert_by_count_stable. cbn [List.filter]. by rewrite IH.
Qed.

Lemma sorted_snd (l : list (string * Z)) :
  StronglySorted (λ a b, b.2 ≤ a.2) l →
  StronglySorted (λ a b : Z, b ≤ a) (snd <$> l).
Proof.
  induction 1 as [|y q Hq IH Hy]; simpl; constructor; [done|].
  by apply Forall_fmap.
Qed.

End MostCommon.

(** X25.  The chart data of [LangStat.make_plot] for a counter: the
    bars are the entries of the counter, each language once with its
    count, the counts go down from left to right, and languages with
    equal counts keep the order in which the counter first saw
    them. *)
Theorem make_plot_bars (c : gmap string Z) (items : dict Z)
    (Henum : enumerates items c) :
  zip (make_plot_data items).1 (make_plot_data items).2 = most_common items
  ∧ Permutation (most_common items) items
  ∧ NoDup (make_plot_data items).1
  ∧ (∀ lang v,
       (lang, v) ∈ zip (make_plot_data items).1 (make_plot_data items).2
       ↔ c !! lang = Some v)
  ∧ StronglySorted (λ a b : Z, b ≤ a) (make_plot_data items).2
  ∧ ∀ v, List.filter (λ a, a.2 =? v) (most_common items)
         = List.filter (λ a, a.2 =? v) items.
Proof.
  destruct Henum as [Hnd Hc]. unfold make_plot_data. cbn [fst snd].
  assert (zip (most_common items).*1 (most_common items).*2
          = most_common items) as Hzip by apply zip_fst_snd.
  split; [done|]. split; [apply most_common_perm|].
  split; [|split; [|split]].
  - unfold keys in Hnd. by rewrite most_common_perm.
  - intros lang v. rewrite Hzip, most_common_perm. apply Hc.
  - apply sorted_snd, most_common_sorted.
  - intros v. apply most_common_stable.
Qed.

Lemma make_plot_bars_witness :
  zip (make_plot_data [("Python", 900); ("R", 1200); ("Go", 900)]).1
    (make_plot_data [("Python", 900); ("R", 1200); ("Go", 900)]).2
  = most_common [("Python", 900); ("R", 1200); ("Go", 900)]
  ∧ Permutation (most_common [("Python", 900); ("R", 1200); ("Go", 900)])
      [("Python", 900); ("R", 1200); ("Go", 900)]
  ∧ NoDup (make_plot_data [("Python", 900); ("R", 1200); ("Go", 900)]).1
  ∧ (∀ lang v,
       (lang, v)
       ∈ zip (make_plot_data [("Python", 900); ("R", 1200); ("Go", 900)]).1
           (make_plot_data [("Python", 900); ("R", 1200); ("Go", 900)]).2
       ↔ (list_to_map [("Python", 900); ("R", 1200); ("Go", 900)]
            : gmap string Z) !! lang = Some v)
  ∧ StronglySorted (λ a b : Z, b ≤ a)
      (make_plot_data [("Python", 900); ("R", 1200); ("Go", 900)]).2
  ∧ ∀ v, List.filter (λ a, a.2 =? v)
           (most_common [("Python", 900); ("R", 1200); ("Go", 900)])
         = List.filter (λ a, a.2 =? v)
             [("Python", 900); ("R", 1200); ("Go", 900)].
Proof.
  apply (make_plot_bars
           (list_to_map [("Python", 900); ("R", 1200); ("Go", 900)])
           [("Python", 900); ("R", 1200); ("Go", 900)]).
  assert (NoDup (keys [("Python", 900); ("R", 1200); ("Go", 900)])) as Hnd.
  { refine (bool_decide_unpack _ _). vm_compute. exact I. }
  split; [exact Hnd|].
  intros k v. apply elem_of_list_to_map. exact Hnd.
Defined.

Example most_common_sample :
  make_plot_data [("Python", 900); ("R", 1200); ("Go", 900)]
  = (["R"; "Python"; "Go"], [1200; 900; 900]).
Proof. reflexivity. Qed.

(** ** Rows as lines *)

Section RowLines.

Lemma is_line_app (a b : string) :
  b ≠ "" → is_line (a +:+ b) = no_newline a && is_line b.
Proof.
  intros Hb. induction a as [|c a IH]; [done|].
  change (String c a +:+ b) with (String c (a +:+ b)).
  cbn [is_line no_newline].
  destruct (a +:+ b) as [|c' s'] eqn:Hab.
  - exfalso. destruct a; [by apply Hb|discriminate Hab].
  - rewrite IH. by rewrite andb_assoc.
Qed.

Lemma app_nonempty (a b : string) : b ≠ "" → a +:+ b ≠ "".
Proof. intros Hb. destruct a; [done|discriminate]. Qed.

End RowLines.

(** X26.  A row of the table is one complete line exactly when none of
    the fields it prints holds a newline: for a repository its name,
    description, owner and language list, for a gist its
    description. *)
Theorem rows_are_lines (r : Repo) (g : Gist) :
  is_line (Repo_markdown r)
  = no_newline (name r) && no_newline (fmt_opt (description r))
    && no_newline (owner r) && no_newline (languages r)
  ∧ is_line (Gist_markdown g) = no_newline (g_description g).
Proof.
  unfold Repo_markdown, Gist_markdown. split.
  - rewrite !is_line_app
      by (repeat apply app_nonempty; unfold nl; discriminate).
    destruct (no_newline (name r)), (no_newline (fmt_opt (description r))),
      (no_newline (owner r)), (no_newline (languages r)); reflexivity.
  - rewrite !is_line_app
      by (repeat apply app_nonempty; unfold nl; discriminate).
    destruct (no_newline (g_description g)); reflexivity.
Qed.
